(** * arcade.camera.static: the static camera and its construction helpers

    A shallow embedding of [src/arcade/camera/static.py].  Python objects
    live in a store and are named by references; a method is a computation
    in a state-and-exception monad over that store.  The matrix and
    projection functions the module imports are an interface
    ([ProjectionFunctions]); the window class is modelled by the attributes
    the module reads and writes. *)

From Stdlib Require Import ZArith String Floats.
From stdpp Require Import base option list gmap.

Local Open Scope Z_scope.

(** ** Values *)

(** [Tuple[int, int, int, int]]: x, y, width, height. *)
Definition Viewport : Type := Z * Z * Z * Z.

(** [pyglet.math.Mat4]: a tuple of 16 floats.  The module only stores
    matrices and hands them on. *)
Definition Mat4 : Type := list float.

(** [pyglet.math.Vec2] and [pyglet.math.Vec3]. *)
Record Vec2 : Type := mkVec2 { v2_x : float; v2_y : float }.
Record Vec3 : Type := mkVec3 { v3_x : float; v3_y : float; v3_z : float }.

(** The callables a camera may hold, by their annotations in [__init__]. *)
Definition ProjectMethod : Type := Vec3 -> Viewport -> Mat4 -> Mat4 -> Vec2.
Definition UnprojectMethod : Type :=
  Vec2 -> Viewport -> Mat4 -> Mat4 -> option float -> Vec3.

(** Modelled from the spec: [arcade.camera.data_types] is not under src/.
    The records follow section 3 of the spec (CameraPose,
    ProjectionParameters) and the positional constructor calls of
    [static_from_raw_orthographic] and [static_from_raw_perspective].  The
    descriptor's viewport is optional, since [__init__] tests it with [or]. *)
Record CameraData : Type := mkCameraData {
  position : float * float * float;
  up : float * float * float;
  forward : float * float * float;
  zoom : float
}.

Record OrthographicProjectionData : Type := mkOrthographicProjectionData {
  ortho_left : float;
  ortho_right : float;
  ortho_bottom : float;
  ortho_top : float;
  ortho_near : float;
  ortho_far : float;
  ortho_viewport : option Viewport
}.

Record PerspectiveProjectionData : Type := mkPerspectiveProjectionData {
  persp_aspect : float;
  persp_fov : float;
  persp_near : float;
  persp_far : float;
  persp_viewport : option Viewport
}.

(** Modelled from the spec: [arcade.camera.projection_functions] is not
    under src/; section 6 of the spec contracts its functions by signature
    only, as pure functions.  They are the parameters of the development. *)
Class ProjectionFunctions : Type := {
  generate_view_matrix : CameraData -> Mat4;
  generate_orthographic_matrix : OrthographicProjectionData -> float -> Mat4;
  generate_perspective_matrix : PerspectiveProjectionData -> float -> Mat4;
  project_orthographic : ProjectMethod;
  project_perspective : ProjectMethod;
  unproject_orthographic : UnprojectMethod;
  unproject_perspective : UnprojectMethod
}.

(** ** Objects and the store *)

(** References to camera and window objects. *)
Definition CamRef : Type := nat.
Definition WinRef : Type := nat.

(** The attributes [__init__] sets on a [_StaticCamera]. *)
Record _StaticCamera : Type := mk_StaticCamera {
  _win : WinRef;
  _viewport : Viewport;
  _view : Mat4;
  _projection : Mat4;
  _project_method : option ProjectMethod;
  _unproject_method : option UnprojectMethod
}.

(** Python's exceptions, as far as the module can raise them. *)
Inductive exn : Type :=
| ValueError (msg : string)
    (* raised by [project] and [unproject] *)
| IndexError
    (* a tuple indexed past its end *)
| AttributeError
    (* [prev.use()] with [prev] being [None] *)
| RuntimeError
    (* [get_window()] with no active window *)
| DanglingReference
    (* a reference the store does not hold.  Python has no such reference:
       the case exists because the store is a partial map, and the store
       holds the cameras of the one class of this module *)
| Raised (tag : nat).
    (* any exception a caller's code raises inside [with activate()] *)

Inductive Result (A : Type) : Type :=
| Ok (a : A)
| Raise (e : exn).
Arguments Ok {A} a.
Arguments Raise {A} e.

Section Store.
(** Everything a window or its context holds besides the attributes this
    module names. *)
Context {Other : Type}.

(** Modelled from the spec: the window class ([arcade.application]) and its
    context are not under src/.  Section 6 of the spec gives the
    window/context collaborator four mutable fields: a current-camera slot,
    a viewport, a view matrix and a projection matrix.  The context holds
    the four: [ctx.viewport], [ctx.projection_matrix], [ctx.view_matrix]
    and the slot, [ctx.current_camera]. *)
Record ArcadeContext : Type := mkArcadeContext {
  ctx_viewport : Viewport;
  ctx_projection_matrix : Mat4;
  ctx_view_matrix : Mat4;
  ctx_current_camera : option CamRef;
  ctx_other : Other
}.

(** Modelled from the spec: the window itself, likewise not under src/,
    with its context [window.ctx].  The source reaches the current camera
    by two attribute paths, [window.current_camera] (assigned in [use]) and
    [window.ctx.current_camera] (read in [activate]).  The spec knows one
    current-camera slot, so both paths name the slot of the context:
    [win_current_camera] reads it and [set_win_current_camera], below,
    assigns it. *)
Record Window : Type := mkWindow {
  win_ctx : ArcadeContext;
  win_other : Other
}.

(** Modelled from the spec: reading [window.current_camera], an attribute
    of the absent window class.  It reads the one current-camera slot. *)
Definition win_current_camera (win : Window) : option CamRef :=
  ctx_current_camera (win_ctx win).

(** The store.  [active_window] is the registry [get_window()] reads.
    [use_calls] is a history of the [use()] calls made so far, oldest
    first: no attribute of the program, it only records the calls. *)
Record State : Type := mkState {
  cameras : gmap CamRef _StaticCamera;
  windows : gmap WinRef Window;
  active_window : option WinRef;
  use_calls : list CamRef
}.

(** *** The monad of methods: state and exceptions *)

Definition M (A : Type) : Type := State -> Result A * State.

Definition ret {A} (a : A) : M A := fun s => (Ok a, s).

Definition raise {A} (e : exn) : M A := fun s => (Raise e, s).

Definition bind {A B} (m : M A) (k : A -> M B) : M B := fun s =>
  match m s with
  | (Ok a, s') => k a s'
  | (Raise e, s') => (Raise e, s')
  end.

(** [try: body finally: final].  [final] runs on both ways out of [body];
    an exception of [final] replaces the outcome of [body]. *)
Definition try_finally {A} (body : M A) (final : M unit) : M A := fun s =>
  let '(r, s1) := body s in
  match final s1 with
  | (Ok _, s2) => (r, s2)
  | (Raise e, s2) => (Raise e, s2)
  end.

(** [try: body except Exception: pass]. *)
Definition try_except_pass (body : M unit) : M unit := fun s =>
  match body s with
  | (Ok _, s') => (Ok tt, s')
  | (Raise _, s') => (Ok tt, s')
  end.
End Store.

Arguments ArcadeContext : clear implicits.
Arguments Window : clear implicits.
Arguments State : clear implicits.
Arguments M : clear implicits.

Notation "'let*' x ':=' m 'in' k" := (bind m (fun x => k))
  (at level 10, x name, m at level 100, k at level 200).

(** ** The class [_StaticCamera] *)

Section Methods.
Context {Other : Type}.
Context `{ProjectionFunctions}.

Local Abbreviation State := (State Other).
Local Abbreviation M := (M Other).
Local Abbreviation Window := (Window Other).
Local Abbreviation ArcadeContext := (ArcadeContext Other).

(** *** Access to the store *)

Definition read_camera (c : CamRef) : M _StaticCamera := fun s =>
  match cameras s !! c with
  | Some cam => (Ok cam, s)
  | None => (Raise DanglingReference, s)
  end.

Definition read_window (w : WinRef) : M Window := fun s =>
  match windows s !! w with
  | Some win => (Ok win, s)
  | None => (Raise DanglingReference, s)
  end.

(** An assignment to an attribute of the window [w], or of its context. *)
Definition write_window (w : WinRef) (f : Window -> Window) : M unit :=
  fun s =>
  match windows s !! w with
  | Some win =>
      (Ok tt, {| cameras := cameras s;
                 windows := <[w := f win]> (windows s);
                 active_window := active_window s;
                 use_calls := use_calls s |})
  | None => (Raise DanglingReference, s)
  end.

Definition set_win_ctx (f : ArcadeContext -> ArcadeContext) (win : Window)
  : Window :=
  {| win_ctx := f (win_ctx win);
     win_other := win_other win |}.

Definition set_ctx_current_camera (c : option CamRef) (ctx : ArcadeContext)
  : ArcadeContext :=
  {| ctx_viewport := ctx_viewport ctx;
     ctx_projection_matrix := ctx_projection_matrix ctx;
     ctx_view_matrix := ctx_view_matrix ctx;
     ctx_current_camera := c;
     ctx_other := ctx_other ctx |}.

(** Modelled from the spec: the assignment [window.current_camera = c], to
    an attribute of the absent window class.  It assigns the one
    current-camera slot, the one [window.ctx.current_camera] reads. *)
Definition set_win_current_camera (c : option CamRef) (win : Window)
  : Window :=
  set_win_ctx (set_ctx_current_camera c) win.

Definition set_ctx_viewport (v : Viewport) (ctx : ArcadeContext)
  : ArcadeContext :=
  {| ctx_viewport := v;
     ctx_projection_matrix := ctx_projection_matrix ctx;
     ctx_view_matrix := ctx_view_matrix ctx;
     ctx_current_camera := ctx_current_camera ctx;
     ctx_other := ctx_other ctx |}.

Definition set_ctx_projection_matrix (m : Mat4) (ctx : ArcadeContext)
  : ArcadeContext :=
  {| ctx_viewport := ctx_viewport ctx;
     ctx_projection_matrix := m;
     ctx_view_matrix := ctx_view_matrix ctx;
     ctx_current_camera := ctx_current_camera ctx;
     ctx_other := ctx_other ctx |}.

Definition set_ctx_view_matrix (m : Mat4) (ctx : ArcadeContext)
  : ArcadeContext :=
  {| ctx_viewport := ctx_viewport ctx;
     ctx_projection_matrix := ctx_projection_matrix ctx;
     ctx_view_matrix := m;
     ctx_current_camera := ctx_current_camera ctx;
     ctx_other := ctx_other ctx |}.

(** A new object: a reference the store does not hold yet. *)
Definition new_camera (cam : _StaticCamera) : M CamRef := fun s =>
  let c := fresh (dom (cameras s)) in
  (Ok c, {| cameras := <[c := cam]> (cameras s);
            windows := windows s;
            active_window := active_window s;
            use_calls := use_calls s |}).

(** The history of [use()] calls grows by one entry. *)
Definition record_use (c : CamRef) : M unit := fun s =>
  (Ok tt, {| cameras := cameras s;
             windows := windows s;
             active_window := active_window s;
             use_calls := use_calls s ++ [c] |}).

(** [t[i]] on a tuple. *)
Definition index {A} (t : list A) (i : nat) : M A :=
  match t !! i with
  | Some x => ret x
  | None => raise IndexError
  end.

(** Modelled from the spec: [arcade.window_commands.get_window] is not
    under src/.  Section 6 of the spec: a process-wide registry returning
    the active window; with none registered the lookup fails. *)
Definition get_window : M WinRef := fun s =>
  match active_window s with
  | Some w => (Ok w, s)
  | None => (Raise RuntimeError, s)
  end.

(** *** [__init__] (lines 27-41)

    [x or y] on an optional value is [y] exactly when [x] is [None]: a
    window object and a 4-tuple are never falsy.  The right operand is
    evaluated only then. *)
Definition __init__ (view_matrix projection_matrix : Mat4)
    (viewport : option Viewport)
    (project_method : option ProjectMethod)
    (unproject_method : option UnprojectMethod)
    (window : option WinRef) : M CamRef :=
  let* win := match window with
              | Some w => ret w
              | None => get_window
              end in
  let* vp := match viewport with
             | Some v => ret v
             | None => let* w := read_window win in
                       ret (ctx_viewport (win_ctx w))
             end in
  new_camera {| _win := win;
                _viewport := vp;
                _view := view_matrix;
                _projection := projection_matrix;
                _project_method := project_method;
                _unproject_method := unproject_method |}.

(** *** [use] (lines 43-48) *)
Definition use (self : CamRef) : M unit :=
  let* cam := read_camera self in
  let* _ := record_use self in
  let* _ := write_window (_win cam)
              (set_win_current_camera (Some self)) in
  let* _ := write_window (_win cam)
              (set_win_ctx (set_ctx_viewport (_viewport cam))) in
  let* _ := write_window (_win cam)
              (set_win_ctx (set_ctx_projection_matrix (_projection cam))) in
  write_window (_win cam)
    (set_win_ctx (set_ctx_view_matrix (_view cam))).

(** [prev.use()] (line 57): a call on whatever the slot held.  [None] has
    no attribute [use].  A camera is called through its class; the store
    holds the cameras of [_StaticCamera], the one camera class of the
    module, so the method that runs is [use] above.  A camera of another
    class would run a [use] that is not under src/: no reference of the
    store names one, and what a scope restores is stated below for states
    whose current cameras are cameras of the store. *)
Definition use_prev (prev : option CamRef) : M unit :=
  match prev with
  | Some p => use p
  | None => raise AttributeError
  end.

(** *** [activate] (lines 50-57)

    The context manager applied to a [with] body: the generator runs up to
    its [yield], the body runs with the yielded camera, and the [finally]
    clause runs whether the body returned or raised. *)
Definition activate {A} (self : CamRef) (body : CamRef -> M A) : M A :=
  let* cam := read_camera self in
  let* win := read_window (_win cam) in
  let prev := ctx_current_camera (win_ctx win) in
  try_finally
    (let* _ := use self in body self)
    (use_prev prev).

(** *** [project] (lines 59-70) *)
Definition project (self : CamRef) (world_coordinate : list float)
  : M (float * float) :=
  let* cam := read_camera self in
  match _project_method cam with
  | None =>
      raise (ValueError
        "This Static Camera was not provided a project method at creation")
  | Some project_method =>
      let* x := index world_coordinate 0 in
      let* y := index world_coordinate 1 in
      let* z := index world_coordinate 2 in
      let pos := project_method (mkVec3 x y z)
                   (_viewport cam) (_view cam) (_projection cam) in
      ret (v2_x pos, v2_y pos)
  end.

(** *** [unproject] (lines 72-96) *)
Definition unproject (self : CamRef) (screen_coordinate : list float)
    (depth : option float) : M (float * float * float) :=
  let* cam := read_camera self in
  match _unproject_method cam with
  | None =>
      raise (ValueError
        "This Static Camera was not provided an unproject method at creation")
  | Some unproject_method =>
      let* x := index screen_coordinate 0 in
      let* y := index screen_coordinate 1 in
      let pos := unproject_method (mkVec2 x y)
                   (_viewport cam) (_view cam) (_projection cam) depth in
      ret (v3_x pos, v3_y pos, v3_z pos)
  end.

(** ** The construction helpers *)

(** [static_from_orthographic] (lines 98-110). *)
Definition static_from_orthographic (view : CameraData)
    (orthographic : OrthographicProjectionData) (window : option WinRef)
  : M CamRef :=
  __init__
    (generate_view_matrix view)
    (generate_orthographic_matrix orthographic (zoom view))
    (ortho_viewport orthographic)
    (Some project_orthographic)
    (Some unproject_orthographic)
    window.

(** [static_from_perspective] (lines 113-125).  The descriptor is
    annotated [OrthographicProjectionData] in the source. *)
Definition static_from_perspective (view : CameraData)
    (perspective : OrthographicProjectionData) (window : option WinRef)
  : M CamRef :=
  __init__
    (generate_view_matrix view)
    (generate_orthographic_matrix perspective (zoom view))
    (ortho_viewport perspective)
    (Some project_perspective)
    (Some unproject_perspective)
    window.

(** The zero rectangle of [viewport or (0, 0, 0, 0)]. *)
Definition zero_viewport : Viewport := (0, 0, 0, 0).

(** [static_from_raw_orthographic] (lines 128-148).  Arguments with a
    default in the source are explicit here; the defaults are
    [default_near] and the definitions next to it. *)
Definition static_from_raw_orthographic
    (projection : float * float * float * float)
    (near far zoom : float)
    (position up forward : float * float * float)
    (viewport : option Viewport) (window : option WinRef) : M CamRef :=
  let '(p0, p1, p2, p3) := projection in
  let view := generate_view_matrix
                (mkCameraData position up forward zoom) in
  let proj := generate_orthographic_matrix
                (mkOrthographicProjectionData p0 p1 p2 p3 near far
                   (Some (default zero_viewport viewport)))
                zoom in
  __init__ view proj viewport
    (Some project_orthographic) (Some unproject_orthographic) window.

(** [static_from_raw_perspective] (lines 151-171). *)
Definition static_from_raw_perspective (aspect fov : float)
    (near far zoom : float)
    (position up forward : float * float * float)
    (viewport : option Viewport) (window : option WinRef) : M CamRef :=
  let view := generate_view_matrix
                (mkCameraData position up forward zoom) in
  let proj := generate_perspective_matrix
                (mkPerspectiveProjectionData aspect fov near far
                   (Some (default zero_viewport viewport)))
                zoom in
  __init__ view proj viewport
    (Some project_perspective) (Some unproject_perspective) window.

(** [static_from_matrices] (lines 174-183). *)
Definition static_from_matrices (view projection : Mat4)
    (viewport : option Viewport) (window : option WinRef)
    (project_method : option ProjectMethod)
    (unproject_method : option UnprojectMethod) : M CamRef :=
  __init__ view projection viewport project_method unproject_method
    window.
End Methods.

(** The defaults of the raw helpers' keyword arguments. *)
Definition default_near : float := (-100)%float.
Definition default_far : float := 100%float.
Definition default_zoom : float := 1%float.
Definition default_position : float * float * float :=
  (0%float, 0%float, 0%float).
Definition default_up : float * float * float :=
  (0%float, 1%float, 0%float).
Definition default_forward : float * float * float :=
  (0%float, 0%float, (-1)%float).

(** ** Callers: sequences of method calls

    What a caller can do with cameras it holds: call the four methods, in
    any order and nesting, raise inside a [with] body, and catch what was
    raised. *)
Inductive Stmt : Type :=
| SUse (c : CamRef)
    (* [c.use()] *)
| SProject (c : CamRef) (world_coordinate : list float)
    (* [c.project(world_coordinate)] *)
| SUnproject (c : CamRef) (screen_coordinate : list float)
    (depth : option float)
    (* [c.unproject(screen_coordinate, depth)] *)
| SWith (c : CamRef) (body : Block)
    (* [with c.activate(): body] *)
| SRaise (tag : nat)
    (* [raise E] *)
| STry (body : Block)
    (* [try: body except Exception: pass] *)
with Block : Type :=
| Done
| Then (st : Stmt) (rest : Block).

Scheme Stmt_Block_ind := Induction for Stmt Sort Prop
  with Block_Stmt_ind := Induction for Block Sort Prop.
Combined Scheme Stmt_Block_mutind from Stmt_Block_ind, Block_Stmt_ind.

Section Callers.
Context {Other : Type}.

Local Abbreviation M := (M Other).

Fixpoint exec (st : Stmt) : M unit :=
  match st with
  | SUse c => use c
  | SProject c world_coordinate =>
      let* _ := project c world_coordinate in ret tt
  | SUnproject c screen_coordinate depth =>
      let* _ := unproject c screen_coordinate depth in ret tt
  | SWith c body => activate c (fun _ => exec_block body)
  | SRaise tag => raise (Raised tag)
  | STry body => try_except_pass (exec_block body)
  end
with exec_block (b : Block) : M unit :=
  match b with
  | Done => ret tt
  | Then st rest => let* _ := exec st in exec_block rest
  end.
End Callers.

(** [with c1.activate(): with c2.activate(): ... body]: scopes inside
    scopes, the outermost first. *)
Fixpoint nested (cams : list CamRef) (body : Block) : Block :=
  match cams with
  | [] => body
  | c :: rest => Then (SWith c (nested rest body)) Done
  end.

(** [c1.use(); c2.use(); ...; body]: the same cameras used one after the
    other, without a scope. *)
Fixpoint used (cams : list CamRef) (body : Block) : Block :=
  match cams with
  | [] => body
  | c :: rest => Then (SUse c) (used rest body)
  end.

(** ** Calls of the construction helpers

    One constructor per helper, holding the arguments of the call besides
    the window, so that a property can speak of any helper call. *)
Inductive HelperCall : Type :=
| FromOrthographic (view : CameraData)
    (orthographic : OrthographicProjectionData)
| FromPerspective (view : CameraData)
    (perspective : OrthographicProjectionData)
| FromRawOrthographic (projection : float * float * float * float)
    (near far zoom : float) (position up forward : float * float * float)
    (viewport : option Viewport)
| FromRawPerspective (aspect fov : float)
    (near far zoom : float) (position up forward : float * float * float)
    (viewport : option Viewport)
| FromMatrices (view projection : Mat4) (viewport : option Viewport)
    (project_method : option ProjectMethod)
    (unproject_method : option UnprojectMethod).

Section Helpers.
Context {Other : Type}.
Context `{ProjectionFunctions}.

(** The helper call itself. *)
Definition build (h : HelperCall) (window : option WinRef)
  : M Other CamRef :=
  match h with
  | FromOrthographic view orthographic =>
      static_from_orthographic view orthographic window
  | FromPerspective view perspective =>
      static_from_perspective view perspective window
  | FromRawOrthographic projection near far zoom position up forward
      viewport =>
      static_from_raw_orthographic projection near far zoom position up
        forward viewport window
  | FromRawPerspective aspect fov near far zoom position up forward
      viewport =>
      static_from_raw_perspective aspect fov near far zoom position up
        forward viewport window
  | FromMatrices view projection viewport project_method unproject_method =>
      static_from_matrices view projection viewport window project_method
        unproject_method
  end.

(** The viewport a helper call supplies: its [viewport] argument, or the
    viewport of the descriptor for the two structured helpers. *)
Definition supplied_viewport (h : HelperCall) : option Viewport :=
  match h with
  | FromOrthographic _ orthographic => ortho_viewport orthographic
  | FromPerspective _ perspective => ortho_viewport perspective
  | FromRawOrthographic _ _ _ _ _ _ _ viewport => viewport
  | FromRawPerspective _ _ _ _ _ _ _ _ viewport => viewport
  | FromMatrices _ _ viewport _ _ => viewport
  end.
End Helpers.


(** ** Vocabulary of the properties *)

Section Vocabulary.
Context {Other : Type}.

(** The window [win] once the camera [c], holding [cam], is installed on
    it: the four attributes [use()] names carry the camera and its stored
    values, every other attribute is the one of [win]. *)
Definition installed (c : CamRef) (cam : _StaticCamera) (win : Window Other)
  : Window Other :=
  {| win_ctx :=
       {| ctx_viewport := _viewport cam;
          ctx_projection_matrix := _projection cam;
          ctx_view_matrix := _view cam;
          ctx_current_camera := Some c;
          ctx_other := ctx_other (win_ctx win) |};
     win_other := win_other win |}.

(** What [use()] never assigns, window by window: everything besides the
    four attributes. *)
Definition unassigned (win : Window Other) : Other * Other :=
  (ctx_other (win_ctx win), win_other win).

(** [s'] differs from [s] at most in the four attributes [use()] assigns
    and in the history of calls: the same cameras, the same registry, the
    same windows, each with the rest of its attributes. *)
Definition only_use_writes (s s' : State Other) : Prop :=
  cameras s' = cameras s /\
  active_window s' = active_window s /\
  forall w : WinRef,
    unassigned <$> (windows s' !! w) = unassigned <$> (windows s !! w).

(** A computation that, from every state, stays within [only_use_writes]. *)
Definition writes_only_use_fields {A} (m : M Other A) : Prop :=
  forall s, only_use_writes s (m s).2.

(** The attributes a method can read: the state with everything else
    ([Other]) forgotten. *)
Definition forget_ctx (ctx : ArcadeContext Other) : ArcadeContext unit :=
  {| ctx_viewport := ctx_viewport ctx;
     ctx_projection_matrix := ctx_projection_matrix ctx;
     ctx_view_matrix := ctx_view_matrix ctx;
     ctx_current_camera := ctx_current_camera ctx;
     ctx_other := tt |}.

Definition forget_window (win : Window Other) : Window unit :=
  {| win_ctx := forget_ctx (win_ctx win);
     win_other := tt |}.

Definition forget (s : State Other) : State unit :=
  {| cameras := cameras s;
     windows := forget_window <$> windows s;
     active_window := active_window s;
     use_calls := use_calls s |}.

(** The four attributes [use()] assigns, window by window. *)
Definition assigned (win : Window Other)
  : option CamRef * Viewport * Mat4 * Mat4 :=
  (win_current_camera win, ctx_viewport (win_ctx win),
   ctx_projection_matrix (win_ctx win), ctx_view_matrix (win_ctx win)).


(** The window a helper resolves: the one it is given, or else the active
    window of the registry. *)
Definition target_window (s : State Other) (window : option WinRef)
  : option WinRef :=
  match window with
  | Some w => Some w
  | None => active_window s
  end.

(** The viewport a camera is given: the one supplied, or else the current
    viewport of the context of the target window. *)
Definition resolved_viewport (s : State Other) (w : WinRef)
    (viewport : option Viewport) : option Viewport :=
  match viewport with
  | Some v => Some v
  | None => (fun win => ctx_viewport (win_ctx win)) <$> (windows s !! w)
  end.

(** The stored viewport of the camera a construction helper returned. *)
Definition stored_viewport (r : Result CamRef * State Other)
  : option Viewport :=
  match r with
  | (Ok c, s) => _viewport <$> (cameras s !! c)
  | (Raise _, _) => None
  end.

(** The stored projection matrix of the camera a helper returned. *)
Definition stored_projection (r : Result CamRef * State Other)
  : option Mat4 :=
  match r with
  | (Ok c, s) => _projection <$> (cameras s !! c)
  | (Raise _, _) => None
  end.

(** A computation that does not depend on the [Other] attributes: run on
    the state with them forgotten, it ends with the same outcome and the
    same state, with them forgotten. *)
Definition ignores_other {A} (m : M Other A) (m' : M unit A) : Prop :=
  forall s, m' (forget s) = ((m s).1, forget (m s).2).
(** The camera a construction helper returned, as the store holds it. *)
Definition built_camera (r : Result CamRef * State Other)
  : option _StaticCamera :=
  match r with
  | (Ok c, s) => cameras s !! c
  | (Raise _, _) => None
  end.

(** The state with another registry of the active window. *)
Definition with_active_window (a : option WinRef) (s : State Other)
  : State Other :=
  {| cameras := cameras s;
     windows := windows s;
     active_window := a;
     use_calls := use_calls s |}.

(** What a construction helper must leave alone: the windows, the registry,
    the history of [use()] calls and every camera the store held. *)
Definition builds_only (s s' : State Other) : Prop :=
  windows s' = windows s /\
  active_window s' = active_window s /\
  use_calls s' = use_calls s /\
  forall c cam, cameras s !! c = Some cam -> cameras s' !! c = Some cam.
(** The context shows the current camera: in every window whose
    [current_camera] is a camera, that camera is a camera of this window,
    and the viewport, projection matrix and view matrix of the context are
    the ones the camera stores. *)
Definition shows_current_camera (s : State Other) : Prop :=
  forall w win c,
    windows s !! w = Some win ->
    win_current_camera win = Some c ->
    exists cam,
      cameras s !! c = Some cam /\
      _win cam = w /\
      assigned win = (Some c, _viewport cam, _projection cam, _view cam).

(** A computation that keeps a property of the state, however it ends. *)
Definition keeps (I : State Other -> Prop) {A} (m : M Other A) : Prop :=
  forall s, I s -> I (m s).2.
End Vocabulary.

(** The imported functions with another perspective matrix generator. *)
Definition with_generate_perspective_matrix
    (g : PerspectiveProjectionData -> float -> Mat4)
    (F : ProjectionFunctions) : ProjectionFunctions :=
  {| generate_view_matrix := @generate_view_matrix F;
     generate_orthographic_matrix := @generate_orthographic_matrix F;
     generate_perspective_matrix := g;
     project_orthographic := @project_orthographic F;
     project_perspective := @project_perspective F;
     unproject_orthographic := @unproject_orthographic F;
     unproject_perspective := @unproject_perspective F |}.

(** ** Sample objects

    Concrete functions and stores on which the model is run.  The sample
    functions stand for no particular implementation of
    [arcade.camera.projection_functions]. *)

Definition identity_matrix : Mat4 :=
  [1; 0; 0; 0;  0; 1; 0; 0;  0; 0; 1; 0;  0; 0; 0; 1]%float.

Definition sample_functions : ProjectionFunctions :=
  {| generate_view_matrix := fun _ => identity_matrix;
     generate_orthographic_matrix := fun d z =>
       [ortho_left d; ortho_right d; ortho_bottom d; ortho_top d;
        ortho_near d; ortho_far d; z];
     generate_perspective_matrix := fun d z =>
       [persp_aspect d; persp_fov d; persp_near d; persp_far d; z];
     project_orthographic := fun p _ _ _ => mkVec2 (v3_x p) (v3_y p);
     project_perspective := fun p _ _ _ =>
       mkVec2 (v3_x p / v3_z p)%float (v3_y p / v3_z p)%float;
     unproject_orthographic := fun q _ _ _ depth =>
       mkVec3 (v2_x q) (v2_y q) (default 0%float depth);
     unproject_perspective := fun q _ _ _ depth =>
       mkVec3 (v2_x q * default 1%float depth)%float
              (v2_y q * default 1%float depth)%float
              (default 1%float depth) |}.

Definition sample_viewport : Viewport := (0, 0, 800, 600).

(** A pose and an orthographic descriptor that carries no viewport. *)
Definition sample_view : CameraData :=
  mkCameraData default_position default_up default_forward default_zoom.

Definition sample_descriptor : OrthographicProjectionData :=
  mkOrthographicProjectionData 0 800 0 600 default_near default_far None.

(** A window whose current camera is camera 2. *)
Definition sample_window : Window Z :=
  {| win_ctx := {| ctx_viewport := sample_viewport;
                   ctx_projection_matrix := identity_matrix;
                   ctx_view_matrix := identity_matrix;
                   ctx_current_camera := Some 2%nat;
                   ctx_other := 7 |};
     win_other := 9 |}.

(** Cameras 0, 1 and 2 are orthographic cameras with viewports of their
    own; camera 3 was given no project and no unproject method. *)
Definition sample_camera (width : Z) : _StaticCamera :=
  {| _win := 0%nat;
     _viewport := (0, 0, width, 100);
     _view := identity_matrix;
     _projection := identity_matrix;
     _project_method := Some (@project_orthographic sample_functions);
     _unproject_method := Some (@unproject_orthographic sample_functions) |}.

Definition unconfigured_camera : _StaticCamera :=
  {| _win := 0%nat;
     _viewport := sample_viewport;
     _view := identity_matrix;
     _projection := identity_matrix;
     _project_method := None;
     _unproject_method := None |}.

Definition sample_state : State Z :=
  {| cameras := <[0%nat := sample_camera 100]>
                 (<[1%nat := sample_camera 200]>
                 (<[2%nat := sample_camera 300]>
                 (<[3%nat := unconfigured_camera]> ∅)));
     windows := <[0%nat := sample_window]> ∅;
     active_window := Some 0%nat;
     use_calls := [] |}.

(** The same store with camera 1 as the current camera. *)
Definition sample_state' : State Z :=
  {| cameras := cameras sample_state;
     windows := <[0%nat := set_win_current_camera (Some 1%nat)
                             sample_window]> ∅;
     active_window := Some 0%nat;
     use_calls := [] |}.

(** The same store with no current camera. *)
Definition sample_state_no_previous : State Z :=
  {| cameras := cameras sample_state;
     windows := <[0%nat := set_win_current_camera None sample_window]> ∅;
     active_window := Some 0%nat;
     use_calls := [] |}.

(** A camera of a second window, and a store with the two windows. *)
Definition second_window_camera : _StaticCamera :=
  {| _win := 1%nat;
     _viewport := (5, 5, 50, 50);
     _view := identity_matrix;
     _projection := identity_matrix;
     _project_method := None;
     _unproject_method := None |}.

Definition two_window_state : State Z :=
  {| cameras := <[5%nat := second_window_camera]> (cameras sample_state);
     windows := <[1%nat := sample_window]> (windows sample_state);
     active_window := Some 0%nat;
     use_calls := [] |}.

(** The two windows after [cameras[0].use()] and [cameras[5].use()], with
    camera 6 a second camera of window 1. *)
Definition two_window_state_in_use : State Z :=
  (exec_block (Other := Z) (used [0; 5]%nat Done)
     {| cameras := <[6%nat := second_window_camera]>
                     (cameras two_window_state);
        windows := windows two_window_state;
        active_window := Some 0%nat;
        use_calls := [] |}).2.

(** A raw orthographic call with a viewport of its own. *)
Definition sample_raw_call : HelperCall :=
  FromRawOrthographic (0, 800, 0, 600)%float default_near default_far
    default_zoom default_position default_up default_forward
    (Some (10, 20, 30, 40)).

(** [sample_state] after [cameras[0].use()]. *)
Definition sample_state_in_use : State Z :=
  (use (Other := Z) 0%nat sample_state).2.

(** * Properties *)

Section Properties.
Context {Other : Type}.
Context `{ProjectionFunctions}.

Implicit Types (s : State Other) (c : CamRef) (w : WinRef).
Implicit Types (cam : _StaticCamera) (win : Window Other).

(** ** Running a computation *)

Lemma run_bind {A B} (m : M Other A) (k : A -> M Other B) s :
  (let* x := m in k x) s =
    match m s with
    | (Ok a, s') => k a s'
    | (Raise e, s') => (Raise e, s')
    end.
Proof. reflexivity. Qed.

(** ** What [use] does *)

Lemma use_ok s c cam win :
  cameras s !! c = Some cam ->
  windows s !! _win cam = Some win ->
  use c s =
    (Ok tt, {| cameras := cameras s;
               windows := <[_win cam := installed c cam win]> (windows s);
               active_window := active_window s;
               use_calls := use_calls s ++ [c] |}).
Proof.
  intros Hc Hw.
  unfold use, bind, read_camera, record_use, write_window; cbn.
  rewrite Hc; cbn. rewrite Hw; cbn.
  repeat (rewrite lookup_insert_eq; cbn).
  rewrite !insert_insert_eq. reflexivity.
Qed.

Lemma use_no_camera s c :
  cameras s !! c = None -> use c s = (Raise DanglingReference, s).
Proof.
  intros Hc. unfold use, bind, read_camera. rewrite Hc. reflexivity.
Qed.

Lemma use_no_window s c cam :
  cameras s !! c = Some cam ->
  windows s !! _win cam = None ->
  use c s =
    (Raise DanglingReference,
     {| cameras := cameras s;
        windows := windows s;
        active_window := active_window s;
        use_calls := use_calls s ++ [c] |}).
Proof.
  intros Hc Hw.
  unfold use, bind, read_camera, record_use, write_window; cbn.
  rewrite Hc; cbn. rewrite Hw. reflexivity.
Qed.

(** The three ways [use] can go, for case analysis. *)
Variant use_outcome s c : Result unit * State Other -> Prop :=
| UseInstalled cam win :
    cameras s !! c = Some cam ->
    windows s !! _win cam = Some win ->
    use_outcome s c
      (Ok tt, {| cameras := cameras s;
                 windows := <[_win cam := installed c cam win]> (windows s);
                 active_window := active_window s;
                 use_calls := use_calls s ++ [c] |})
| UseNoCamera :
    cameras s !! c = None ->
    use_outcome s c (Raise DanglingReference, s)
| UseNoWindow cam :
    cameras s !! c = Some cam ->
    windows s !! _win cam = None ->
    use_outcome s c
      (Raise DanglingReference,
       {| cameras := cameras s;
          windows := windows s;
          active_window := active_window s;
          use_calls := use_calls s ++ [c] |}).

Lemma use_cases s c : use_outcome s c (use c s).
Proof.
  destruct (cameras s !! c) as [cam|] eqn:Hc.
  - destruct (windows s !! _win cam) as [win|] eqn:Hw.
    + rewrite (use_ok _ _ _ _ Hc Hw). by econstructor.
    + rewrite (use_no_window _ _ _ Hc Hw). by econstructor.
  - rewrite (use_no_camera _ _ Hc). by constructor.
Qed.

(** C7: [use()] is idempotent.  Calling it twice in succession ends with
    the same outcome, the same windows (hence the same current camera,
    viewport, projection matrix and view matrix in every window and
    context), the same cameras and the same registry as calling it
    once. *)
Theorem use_idempotent s c :
  let once := use c s in
  let twice := (let* _ := use c in use c) s in
  twice.1 = once.1 /\
  windows twice.2 = windows once.2 /\
  cameras twice.2 = cameras once.2 /\
  active_window twice.2 = active_window once.2.
Proof.
  cbv zeta. rewrite run_bind.
  destruct (use_cases s c) as [cam win Hc Hw | Hc | cam Hc Hw].
  - erewrite use_ok; cbn; [| exact Hc | apply lookup_insert_eq].
    rewrite insert_insert_eq. done.
  - done.
  - done.
Qed.

(** ** What no method writes *)

Lemma only_use_writes_refl s : only_use_writes s s.
Proof. by repeat split. Qed.

Lemma only_use_writes_trans s1 s2 s3 :
  only_use_writes s1 s2 -> only_use_writes s2 s3 -> only_use_writes s1 s3.
Proof.
  intros (Hc1 & Ha1 & Hw1) (Hc2 & Ha2 & Hw2).
  repeat split; [congruence | congruence |].
  intros w. by rewrite Hw2.
Qed.

Lemma only_use_writes_calls s calls :
  only_use_writes s
    {| cameras := cameras s;
       windows := windows s;
       active_window := active_window s;
       use_calls := calls |}.
Proof. by repeat split. Qed.

Lemma only_use_writes_installed s c cam win calls :
  windows s !! _win cam = Some win ->
  only_use_writes s
    {| cameras := cameras s;
       windows := <[_win cam := installed c cam win]> (windows s);
       active_window := active_window s;
       use_calls := calls |}.
Proof.
  intros Hw. repeat split; cbn. intros w.
  destruct (decide (w = _win cam)) as [->|Hne].
  - by rewrite lookup_insert_eq, Hw.
  - by rewrite lookup_insert_ne.
Qed.

Create HintDb frame.
Local Hint Resolve only_use_writes_refl only_use_writes_calls
  only_use_writes_installed : frame.

Lemma ret_writes {A} (a : A) :
  writes_only_use_fields (Other := Other) (ret a).
Proof. intros s. apply only_use_writes_refl. Qed.

Lemma raise_writes {A} e :
  writes_only_use_fields (Other := Other) (A := A) (raise e).
Proof. intros s. apply only_use_writes_refl. Qed.

Lemma bind_writes {A B} (m : M Other A) (k : A -> M Other B) :
  writes_only_use_fields m ->
  (forall a, writes_only_use_fields (k a)) ->
  writes_only_use_fields (let* x := m in k x).
Proof.
  intros Hm Hk s. rewrite run_bind.
  specialize (Hm s). destruct (m s) as [[a|e] s']; cbn in *; [|done].
  eapply only_use_writes_trans; [exact Hm | apply Hk].
Qed.

Lemma try_finally_writes {A} (body : M Other A) (final : M Other unit) :
  writes_only_use_fields body ->
  writes_only_use_fields final ->
  writes_only_use_fields (try_finally body final).
Proof.
  intros Hb Hf s. unfold try_finally.
  specialize (Hb s). destruct (body s) as [r s1]; cbn in *.
  specialize (Hf s1). destruct (final s1) as [[[]|e] s2]; cbn in *;
    by eapply only_use_writes_trans.
Qed.

Lemma try_except_pass_writes (body : M Other unit) :
  writes_only_use_fields body ->
  writes_only_use_fields (try_except_pass body).
Proof.
  intros Hb s. unfold try_except_pass.
  specialize (Hb s). by destruct (body s) as [[[]|e] s1].
Qed.

Lemma read_camera_writes c :
  writes_only_use_fields (Other := Other) (read_camera c).
Proof.
  intros s. unfold read_camera.
  destruct (cameras s !! c); apply only_use_writes_refl.
Qed.

Lemma read_window_writes w :
  writes_only_use_fields (Other := Other) (read_window w).
Proof.
  intros s. unfold read_window.
  destruct (windows s !! w); apply only_use_writes_refl.
Qed.

Lemma index_writes {A} (t : list A) i :
  writes_only_use_fields (Other := Other) (index t i).
Proof.
  unfold index. destruct (t !! i); [apply ret_writes | apply raise_writes].
Qed.

Lemma use_writes c : writes_only_use_fields (Other := Other) (use c).
Proof.
  intros s. destruct (use_cases s c); cbn; eauto with frame.
Qed.

Lemma use_prev_writes prev :
  writes_only_use_fields (Other := Other) (use_prev prev).
Proof. destruct prev; [apply use_writes | apply raise_writes]. Qed.

Lemma activate_writes {A} c (body : CamRef -> M Other A) :
  (forall c', writes_only_use_fields (body c')) ->
  writes_only_use_fields (activate c body).
Proof.
  intros Hbody. unfold activate.
  apply bind_writes; [apply read_camera_writes | intros cam].
  apply bind_writes; [apply read_window_writes | intros win].
  apply try_finally_writes; [| apply use_prev_writes].
  apply bind_writes; [apply use_writes | intros _; apply Hbody].
Qed.

Lemma project_writes c world_coordinate :
  writes_only_use_fields (Other := Other) (project c world_coordinate).
Proof.
  unfold project.
  apply bind_writes; [apply read_camera_writes | intros cam].
  destruct (_project_method cam); [| apply raise_writes].
  repeat (apply bind_writes; [apply index_writes | intros ?]).
  apply ret_writes.
Qed.

Lemma unproject_writes c screen_coordinate depth :
  writes_only_use_fields (Other := Other)
    (unproject c screen_coordinate depth).
Proof.
  unfold unproject.
  apply bind_writes; [apply read_camera_writes | intros cam].
  destruct (_unproject_method cam); [| apply raise_writes].
  repeat (apply bind_writes; [apply index_writes | intros ?]).
  apply ret_writes.
Qed.

Lemma exec_writes :
  (forall st, writes_only_use_fields (Other := Other) (exec st)) /\
  (forall b, writes_only_use_fields (Other := Other) (exec_block b)).
Proof.
  apply Stmt_Block_mutind; cbn [exec exec_block].
  - apply use_writes.
  - intros. apply bind_writes; [apply project_writes | intros; apply ret_writes].
  - intros. apply bind_writes; [apply unproject_writes | intros; apply ret_writes].
  - intros c body IH. by apply activate_writes.
  - intros. apply raise_writes.
  - intros body IH. by apply try_except_pass_writes.
  - apply ret_writes.
  - intros st IHst rest IHrest. by apply bind_writes.
Qed.


(** ** Scoped activation *)

Lemma activate_run {A} c (body : CamRef -> M Other A) s cam win :
  cameras s !! c = Some cam ->
  windows s !! _win cam = Some win ->
  activate c body s =
    try_finally (let* _ := use c in body c)
      (use_prev (ctx_current_camera (win_ctx win))) s.
Proof.
  intros Hc Hw. unfold activate.
  rewrite run_bind. unfold read_camera at 1. rewrite Hc.
  rewrite run_bind. unfold read_window at 1. rewrite Hw.
  reflexivity.
Qed.

Lemma window_kept s s' w win :
  only_use_writes s s' ->
  windows s !! w = Some win ->
  exists win', windows s' !! w = Some win' /\ unassigned win' = unassigned win.
Proof.
  intros (_ & _ & Hws) Hw. specialize (Hws w). rewrite Hw in Hws.
  destruct (windows s' !! w) as [win'|]; cbn in *; [| done].
  exists win'. split; [done | congruence].
Qed.

Lemma camera_kept s s' c cam :
  only_use_writes s s' -> cameras s !! c = Some cam -> cameras s' !! c = Some cam.
Proof. intros (-> & _) Hc. exact Hc. Qed.

(** Leaving [with c.activate(): body], for a body made of method calls:
    the last call of [use()] is the one of the camera that the slot held
    on entry, and it installs that camera on its window. *)
Lemma with_block_exit s c cam win P camP winP (body : Block) :
  cameras s !! c = Some cam ->
  windows s !! _win cam = Some win ->
  ctx_current_camera (win_ctx win) = Some P ->
  cameras s !! P = Some camP ->
  windows s !! _win camP = Some winP ->
  let inside := (let* _ := use c in exec_block body) s in
  exists winP',
    windows inside.2 !! _win camP = Some winP' /\
    unassigned winP' = unassigned winP /\
    exec (SWith c body) s =
      (inside.1,
       {| cameras := cameras s;
          windows := <[_win camP := installed P camP winP']> (windows inside.2);
          active_window := active_window s;
          use_calls := use_calls inside.2 ++ [P] |}).
Proof.
  intros Hc Hw Hprev HP HwP inside.
  assert (Hfr : only_use_writes s inside.2).
  { apply (bind_writes (use c) (fun _ => exec_block body));
      [apply use_writes | intros _; apply exec_writes]. }
  destruct (window_kept _ _ _ _ Hfr HwP) as (winP' & HwP' & Hrest).
  pose proof (camera_kept _ _ _ _ Hfr HP) as HP'.
  exists winP'. split; [exact HwP' |]. split; [exact Hrest |].
  cbn [exec]. rewrite (activate_run _ _ _ _ _ Hc Hw), Hprev.
  unfold try_finally. fold inside.
  destruct Hfr as (Hcams & Hact & _).
  destruct inside as [r s1]; cbn in *.
  rewrite (use_ok _ _ _ _ HP' HwP'). by rewrite Hcams, Hact.
Qed.

(** Installing the camera a window showed puts the window back: the four
    attributes get the values they had, the rest was never assigned. *)
Lemma installed_restores c cam win win' :
  assigned win = (Some c, _viewport cam, _projection cam, _view cam) ->
  unassigned win' = unassigned win ->
  installed c cam win' = win.
Proof.
  destruct win as [[vp pm vm cc o] wo], win' as [[vp' pm' vm' cc' o'] wo'].
  unfold assigned, unassigned, installed, win_current_camera; cbn.
  by intros [= -> <- <- <-] [= -> ->].
Qed.





(** ** Coordinate transforms *)

Lemma project_unconfigured s c cam world_coordinate :
  cameras s !! c = Some cam ->
  _project_method cam = None ->
  project c world_coordinate s =
    (Raise (ValueError
       "This Static Camera was not provided a project method at creation"),
     s).
Proof.
  intros Hc Hm. unfold project. rewrite run_bind.
  unfold read_camera. rewrite Hc, Hm. reflexivity.
Qed.

Lemma unproject_unconfigured s c cam screen_coordinate depth :
  cameras s !! c = Some cam ->
  _unproject_method cam = None ->
  unproject c screen_coordinate depth s =
    (Raise (ValueError
       "This Static Camera was not provided an unproject method at creation"),
     s).
Proof.
  intros Hc Hm. unfold unproject. rewrite run_bind.
  unfold read_camera. rewrite Hc, Hm. reflexivity.
Qed.

(** With a project method and at least three components, [project] calls
    the method on the first three components and on the stored viewport and
    matrices, and changes nothing. *)
Lemma project_configured s c cam project_method x y z rest :
  cameras s !! c = Some cam ->
  _project_method cam = Some project_method ->
  project c (x :: y :: z :: rest) s =
    (let pos := project_method (mkVec3 x y z)
                  (_viewport cam) (_view cam) (_projection cam) in
     (Ok (v2_x pos, v2_y pos), s)).
Proof.
  intros Hc Hm. unfold project. rewrite run_bind.
  unfold read_camera. rewrite Hc, Hm. reflexivity.
Qed.

Lemma unproject_configured s c cam unproject_method x y rest depth :
  cameras s !! c = Some cam ->
  _unproject_method cam = Some unproject_method ->
  unproject c (x :: y :: rest) depth s =
    (let pos := unproject_method (mkVec2 x y)
                  (_viewport cam) (_view cam) (_projection cam) depth in
     (Ok (v3_x pos, v3_y pos, v3_z pos), s)).
Proof.
  intros Hc Hm. unfold unproject. rewrite run_bind.
  unfold read_camera. rewrite Hc, Hm. reflexivity.
Qed.

(** [unproject] after [project] hands both functions the same viewport and
    matrices: whatever the function pair recovers of a point on these, the
    camera recovers. *)
Lemma unproject_project s c cam project_method unproject_method x y z depth :
  cameras s !! c = Some cam ->
  _project_method cam = Some project_method ->
  _unproject_method cam = Some unproject_method ->
  (let* q := project c [x; y; z] in unproject c [q.1; q.2] depth) s =
    (let back := unproject_method
                   (project_method (mkVec3 x y z)
                      (_viewport cam) (_view cam) (_projection cam))
                   (_viewport cam) (_view cam) (_projection cam) depth in
     (Ok (v3_x back, v3_y back, v3_z back), s)).
Proof.
  intros Hc Hp Hu. rewrite run_bind.
  rewrite (project_configured _ _ _ _ _ _ _ _ Hc Hp). cbv zeta.
  cbn [fst snd].
  rewrite (unproject_configured _ _ _ _ _ _ _ _ Hc Hu). cbv zeta.
  by destruct (project_method _ _ _ _).
Qed.

(** ** Construction *)

Lemma init_ok s view_matrix projection_matrix viewport project_method
    unproject_method window w vp :
  target_window s window = Some w ->
  resolved_viewport s w viewport = Some vp ->
  let c := fresh (dom (cameras s)) in
  let cam := {| _win := w;
                _viewport := vp;
                _view := view_matrix;
                _projection := projection_matrix;
                _project_method := project_method;
                _unproject_method := unproject_method |} in
  __init__ view_matrix projection_matrix viewport project_method
      unproject_method window s =
    (Ok c, {| cameras := <[c := cam]> (cameras s);
              windows := windows s;
              active_window := active_window s;
              use_calls := use_calls s |}).
Proof.
  intros Hw Hvp. cbv zeta. unfold __init__. rewrite run_bind.
  assert (Hwin : match window with
                 | Some w0 => ret w0
                 | None => get_window
                 end s = (Ok w, s)).
  { destruct window as [w0|]; cbn in Hw.
    - by injection Hw as ->.
    - unfold get_window. by rewrite Hw. }
  rewrite Hwin. rewrite run_bind.
  destruct viewport as [v|]; cbn in Hvp.
  - injection Hvp as ->. reflexivity.
  - rewrite run_bind. unfold read_window.
    destruct (windows s !! w) as [win|]; cbn in Hvp; [| done].
    injection Hvp as <-. reflexivity.
Qed.

Lemma fresh_camera s : cameras s !! fresh (dom (cameras s)) = None.
Proof. apply not_elem_of_dom, is_fresh. Qed.

Lemma init_inv s0 view_matrix projection_matrix viewport project_method
    unproject_method window c s :
  __init__ view_matrix projection_matrix viewport project_method
      unproject_method window s0 = (Ok c, s) ->
  exists w vp,
    target_window s0 window = Some w /\
    resolved_viewport s0 w viewport = Some vp /\
    cameras s0 !! c = None /\
    cameras s = <[c := {| _win := w;
                          _viewport := vp;
                          _view := view_matrix;
                          _projection := projection_matrix;
                          _project_method := project_method;
                          _unproject_method := unproject_method |}]>
                  (cameras s0).
Proof.
  intros Hbuild.
  destruct (target_window s0 window) as [w|] eqn:Hw.
  - destruct (resolved_viewport s0 w viewport) as [vp|] eqn:Hvp.
    + rewrite (init_ok _ _ _ _ _ _ _ _ _ Hw Hvp) in Hbuild.
      injection Hbuild as <- <-. exists w, vp.
      split; [reflexivity |]. split; [exact Hvp |].
      split; [apply fresh_camera | reflexivity].
    + exfalso. unfold __init__ in Hbuild. rewrite run_bind in Hbuild.
      destruct window as [w0|]; cbn in Hw.
      * injection Hw as ->. cbn in Hbuild.
        destruct viewport as [v|]; [done |]. cbn in Hvp.
        rewrite !run_bind in Hbuild. unfold read_window in Hbuild.
        by destruct (windows s0 !! w).
      * unfold get_window in Hbuild. rewrite Hw in Hbuild.
        destruct viewport as [v|]; [done |]. cbn in Hvp.
        rewrite !run_bind in Hbuild. unfold read_window in Hbuild.
        by destruct (windows s0 !! w).
  - exfalso. unfold __init__ in Hbuild. rewrite run_bind in Hbuild.
    destruct window as [w0|]; [done |]. cbn in Hw.
    unfold get_window in Hbuild. by rewrite Hw in Hbuild.
Qed.

Lemma init_no_window s view_matrix projection_matrix viewport project_method
    unproject_method window :
  target_window s window = None ->
  __init__ view_matrix projection_matrix viewport project_method
      unproject_method window s = (Raise RuntimeError, s).
Proof.
  intros Hw. destruct window as [w|]; [done |]. cbn in Hw.
  unfold __init__. rewrite run_bind. unfold get_window. by rewrite Hw.
Qed.

Lemma init_no_viewport s view_matrix projection_matrix viewport
    project_method unproject_method window w :
  target_window s window = Some w ->
  resolved_viewport s w viewport = None ->
  __init__ view_matrix projection_matrix viewport project_method
      unproject_method window s = (Raise DanglingReference, s).
Proof.
  intros Hw Hvp. destruct viewport as [v|]; [done |]. cbn in Hvp.
  unfold __init__. rewrite run_bind.
  assert (Hwin : match window with
                 | Some w0 => ret w0
                 | None => get_window
                 end s = (Ok w, s)).
  { destruct window as [w0|]; cbn in Hw.
    - by injection Hw as ->.
    - unfold get_window. by rewrite Hw. }
  rewrite Hwin, !run_bind. unfold read_window.
  by destruct (windows s !! w).
Qed.

Lemma builds_only_refl s : builds_only s s.
Proof. by repeat split. Qed.

Lemma init_builds_only s view_matrix projection_matrix viewport
    project_method unproject_method window :
  builds_only s
    (__init__ view_matrix projection_matrix viewport project_method
       unproject_method window s).2.
Proof.
  destruct (target_window s window) as [w|] eqn:Hw;
    [| rewrite init_no_window by done; apply builds_only_refl].
  destruct (resolved_viewport s w viewport) as [vp|] eqn:Hvp;
    [| rewrite (init_no_viewport _ _ _ _ _ _ _ _ Hw Hvp);
       apply builds_only_refl].
  rewrite (init_ok _ _ _ _ _ _ _ _ _ Hw Hvp); cbn.
  repeat split. intros c cam Hc; cbn.
  rewrite lookup_insert_ne; [done |].
  intros <-. by rewrite fresh_camera in Hc.
Qed.

(** C9: the stored view matrix, projection matrix and viewport of a camera
    are fixed.  Whatever sequence of [use], [activate], [project] and
    [unproject] calls runs, nested in [with] bodies or not, raising or
    not, every camera of the store ends as it began: no camera is
    changed, lost or added.  So a camera that [__init__] has just built
    holds, after the calls, the view and projection matrix it was built
    with and the viewport [__init__] resolved. *)
Theorem cameras_fixed (calls : Block) s :
  cameras (exec_block calls s).2 = cameras s /\
  (forall view_matrix projection_matrix viewport project_method
          unproject_method window s0 c,
     __init__ view_matrix projection_matrix viewport project_method
         unproject_method window s0 = (Ok c, s) ->
     exists w cam,
       cameras (exec_block calls s).2 !! c = Some cam /\
       _view cam = view_matrix /\
       _projection cam = projection_matrix /\
       target_window s0 window = Some w /\
       resolved_viewport s0 w viewport = Some (_viewport cam)).
Proof.
  assert (Hfixed : cameras (exec_block calls s).2 = cameras s)
    by apply (proj2 exec_writes calls s).
  split; [exact Hfixed |].
  intros view_matrix projection_matrix viewport pm um window s0 c Hbuild.
  destruct (init_inv _ _ _ _ _ _ _ _ _ Hbuild)
    as (w & vp & Hw & Hvp & _ & Hcams).
  exists w. eexists. rewrite Hfixed, Hcams, lookup_insert_eq.
  by repeat split.
Qed.

(** C2: an unconfigured transform raises and mutates nothing.  For a camera
    that holds no project method, [project] raises the [ValueError] of the
    source and returns the state it was given; likewise [unproject] for a
    camera that holds no unproject method; and a camera built by
    [static_from_matrices] without the two methods is such a camera. *)
Theorem unconfigured_transform_raises s c cam :
  cameras s !! c = Some cam ->
  (_project_method cam = None ->
   forall world_coordinate,
     project c world_coordinate s =
       (Raise (ValueError
          "This Static Camera was not provided a project method at creation"),
        s)) /\
  (_unproject_method cam = None ->
   forall screen_coordinate depth,
     unproject c screen_coordinate depth s =
       (Raise (ValueError
          "This Static Camera was not provided an unproject method at creation"),
        s)) /\
  (forall view projection viewport window s0,
     static_from_matrices view projection viewport window None None s0
       = (Ok c, s) ->
     _project_method cam = None /\ _unproject_method cam = None).
Proof.
  intros Hc. split; [| split].
  - intros Hm wc. by apply (project_unconfigured _ _ cam).
  - intros Hm sc depth. by apply (unproject_unconfigured _ _ cam).
  - intros view projection viewport window s0 Hbuild.
    unfold static_from_matrices, __init__ in Hbuild.
    rewrite run_bind in Hbuild.
    destruct (match window with
              | Some w0 => ret w0
              | None => get_window
              end s0) as [[w|e] s1]; [| done].
    rewrite run_bind in Hbuild.
    destruct (match viewport with
              | Some v => ret v
              | None => let* w0 := read_window w in
                        ret (ctx_viewport (win_ctx w0))
              end s1) as [[vp|e] s2]; [| done].
    unfold new_camera in Hbuild. injection Hbuild as <- <-.
    cbn in Hc. rewrite lookup_insert_eq in Hc. by injection Hc as <-.
Qed.

(** C5, as the code has it: [project] on a coordinate of two components
    raises [IndexError], since [world_coordinate[2]] is evaluated whenever
    a project method is configured; nothing is defaulted to 0. *)
Theorem project_two_components_raises s c cam project_method (x y : float) :
  cameras s !! c = Some cam ->
  _project_method cam = Some project_method ->
  project c [x; y] s = (Raise IndexError, s).
Proof.
  intros Hc Hm. unfold project. rewrite run_bind.
  unfold read_camera. rewrite Hc, Hm. reflexivity.
Qed.


(** C4: [static_from_perspective] binds the perspective pair of transform
    functions to a projection matrix made by the orthographic generator.
    Whenever the target window resolves and a viewport is at hand, the
    helper returns a new camera whose project and unproject methods are
    [project_perspective] and [unproject_perspective] and whose projection
    matrix is [generate_orthographic_matrix perspective (zoom view)]; the
    result is the same whatever [generate_perspective_matrix] is. *)
Theorem static_from_perspective_camera s view perspective window w vp :
  target_window s window = Some w ->
  resolved_viewport s w (ortho_viewport perspective) = Some vp ->
  (exists c s',
     static_from_perspective view perspective window s = (Ok c, s') /\
     cameras s !! c = None /\
     cameras s' !! c =
       Some {| _win := w;
               _viewport := vp;
               _view := generate_view_matrix view;
               _projection :=
                 generate_orthographic_matrix perspective (zoom view);
               _project_method := Some project_perspective;
               _unproject_method := Some unproject_perspective |}) /\
  (forall g,
     static_from_perspective (H := with_generate_perspective_matrix g H)
       view perspective window s =
     static_from_perspective view perspective window s).
Proof.
  intros Hw Hvp. split; [| reflexivity].
  unfold static_from_perspective.
  rewrite (init_ok _ _ _ _ _ _ _ _ _ Hw Hvp).
  eexists _, _. split; [reflexivity |]. split; [apply fresh_camera |].
  cbn. apply lookup_insert_eq.
Qed.

Lemma init_viewport s view_matrix projection_matrix project_method
    unproject_method window w win :
  target_window s window = Some w ->
  windows s !! w = Some win ->
  stored_viewport
    (__init__ view_matrix projection_matrix None project_method
       unproject_method window s) = Some (ctx_viewport (win_ctx win)).
Proof.
  intros Hw Hwin.
  erewrite init_ok; [| exact Hw | cbn; by rewrite Hwin].
  cbn. by rewrite lookup_insert_eq.
Qed.

(** C3, amended: a viewport that is not supplied falls back to the current
    viewport of the context of the target window, for each of the five
    helpers.  For the structured helpers the viewport that is or is not
    supplied is the one of the projection descriptor.  In the raw helpers
    the zero rectangle is the viewport of the descriptor from which the
    projection matrix is generated, and of nothing else. *)
Theorem unsupplied_viewport_is_context_viewport s window w win :
  target_window s window = Some w ->
  windows s !! w = Some win ->
  let ctx_vp := Some (ctx_viewport (win_ctx win)) in
  (forall view orthographic,
     ortho_viewport orthographic = None ->
     stored_viewport (static_from_orthographic view orthographic window s)
       = ctx_vp) /\
  (forall view perspective,
     ortho_viewport perspective = None ->
     stored_viewport (static_from_perspective view perspective window s)
       = ctx_vp) /\
  (forall projection near far zoom position up forward,
     stored_viewport
       (static_from_raw_orthographic projection near far zoom position up
          forward None window s) = ctx_vp) /\
  (forall aspect fov near far zoom position up forward,
     stored_viewport
       (static_from_raw_perspective aspect fov near far zoom position up
          forward None window s) = ctx_vp) /\
  (forall view projection project_method unproject_method,
     stored_viewport
       (static_from_matrices view projection None window project_method
          unproject_method s) = ctx_vp) /\
  (forall p0 p1 p2 p3 near far zoom position up forward,
     stored_projection
       (static_from_raw_orthographic (p0, p1, p2, p3) near far zoom position
          up forward None window s) =
     Some (generate_orthographic_matrix
             (mkOrthographicProjectionData p0 p1 p2 p3 near far
                (Some zero_viewport)) zoom)) /\
  (forall aspect fov near far zoom position up forward,
     stored_projection
       (static_from_raw_perspective aspect fov near far zoom position up
          forward None window s) =
     Some (generate_perspective_matrix
             (mkPerspectiveProjectionData aspect fov near far
                (Some zero_viewport)) zoom)).
Proof.
  intros Hw Hwin ctx_vp.
  assert (Hvp : resolved_viewport s w None = Some (ctx_viewport (win_ctx win)))
    by (cbn; by rewrite Hwin).
  repeat split.
  - intros view orthographic Hnone. unfold static_from_orthographic.
    rewrite Hnone. by apply init_viewport with (w := w).
  - intros view perspective Hnone. unfold static_from_perspective.
    rewrite Hnone. by apply init_viewport with (w := w).
  - intros [[[p0 p1] p2] p3] near far zoom position up forward.
    unfold static_from_raw_orthographic. by apply init_viewport with (w := w).
  - intros aspect fov near far zoom position up forward.
    unfold static_from_raw_perspective. by apply init_viewport with (w := w).
  - intros view projection pm um.
    unfold static_from_matrices. by apply init_viewport with (w := w).
  - intros. unfold static_from_raw_orthographic.
    rewrite (init_ok _ _ _ _ _ _ _ _ _ Hw Hvp); cbn.
    by rewrite lookup_insert_eq.
  - intros. unfold static_from_raw_perspective.
    rewrite (init_ok _ _ _ _ _ _ _ _ _ Hw Hvp); cbn.
    by rewrite lookup_insert_eq.
Qed.

End Properties.

(** * What the methods read *)

Section Footprint.
Context {Other : Type}.

Implicit Types (s : State Other) (c : CamRef) (w : WinRef).

Lemma forget_lookup s w :
  windows (forget s) !! w = forget_window <$> (windows s !! w).
Proof. apply lookup_fmap. Qed.

Lemma ret_ignores_other {A} (a : A) :
  ignores_other (Other := Other) (ret a) (ret a).
Proof. by intros s. Qed.

Lemma raise_ignores_other {A} e :
  ignores_other (Other := Other) (A := A) (raise e) (raise e).
Proof. by intros s. Qed.

Lemma bind_ignores_other {A B} (m : M Other A) m' (k : A -> M Other B) k' :
  ignores_other m m' ->
  (forall a, ignores_other (k a) (k' a)) ->
  ignores_other (let* x := m in k x) (let* x := m' in k' x).
Proof.
  intros Hm Hk s. rewrite !run_bind, Hm.
  destruct (m s) as [[a|e] s1]; cbn; [apply Hk | done].
Qed.

Lemma try_finally_ignores_other {A} (body : M Other A) body' final final' :
  ignores_other body body' ->
  ignores_other final final' ->
  ignores_other (try_finally body final) (try_finally body' final').
Proof.
  intros Hb Hf s. unfold try_finally. rewrite Hb.
  destruct (body s) as [r s1]; cbn. rewrite Hf.
  by destruct (final s1) as [[[]|e] s2].
Qed.

Lemma try_except_pass_ignores_other (body : M Other unit) body' :
  ignores_other body body' ->
  ignores_other (try_except_pass body) (try_except_pass body').
Proof.
  intros Hb s. unfold try_except_pass. rewrite Hb.
  by destruct (body s) as [[[]|e] s1].
Qed.

Lemma read_camera_ignores_other c :
  ignores_other (Other := Other) (read_camera c) (read_camera c).
Proof.
  intros s. unfold read_camera; cbn. by destruct (cameras s !! c).
Qed.

Lemma index_ignores_other {A} (t : list A) i :
  ignores_other (Other := Other) (index t i) (index t i).
Proof.
  unfold index. destruct (t !! i);
    [apply ret_ignores_other | apply raise_ignores_other].
Qed.

Lemma get_window_ignores_other :
  ignores_other (Other := Other) get_window get_window.
Proof. intros s. unfold get_window; cbn. by destruct (active_window s). Qed.

Lemma use_ignores_other c : ignores_other (Other := Other) (use c) (use c).
Proof.
  intros s. destruct (use_cases s c) as [cam win Hc Hw | Hc | cam Hc Hw].
  - rewrite (use_ok (forget s) c cam (forget_window win));
      [| exact Hc | by rewrite forget_lookup, Hw].
    cbn. unfold forget; cbn. by rewrite fmap_insert.
  - by rewrite use_no_camera.
  - rewrite (use_no_window (forget s) c cam);
      [done | exact Hc | by rewrite forget_lookup, Hw].
Qed.

Lemma use_prev_ignores_other prev :
  ignores_other (Other := Other) (use_prev prev) (use_prev prev).
Proof.
  destruct prev; [apply use_ignores_other | apply raise_ignores_other].
Qed.

Lemma activate_ignores_other {A} c (body : CamRef -> M Other A) body' :
  (forall c', ignores_other (body c') (body' c')) ->
  ignores_other (activate c body) (activate c body').
Proof.
  intros Hbody s.
  destruct (cameras s !! c) as [cam|] eqn:Hc.
  - destruct (windows s !! _win cam) as [win|] eqn:Hw.
    + rewrite (activate_run c body s cam win Hc Hw).
      rewrite (activate_run c body' (forget s) cam (forget_window win));
        [| exact Hc | by rewrite forget_lookup, Hw].
      apply try_finally_ignores_other.
      * apply bind_ignores_other;
          [apply use_ignores_other | intros _; apply Hbody].
      * apply use_prev_ignores_other.
    + unfold activate. rewrite !run_bind. unfold read_camera.
      cbn [cameras forget]. rewrite Hc. rewrite !run_bind.
      unfold read_window. by rewrite forget_lookup, Hw.
  - unfold activate. rewrite !run_bind. unfold read_camera.
    cbn [cameras forget]. by rewrite Hc.
Qed.

Lemma project_ignores_other c world_coordinate :
  ignores_other (Other := Other)
    (project c world_coordinate) (project c world_coordinate).
Proof.
  unfold project.
  apply bind_ignores_other; [apply read_camera_ignores_other | intros cam].
  destruct (_project_method cam); [| apply raise_ignores_other].
  repeat (apply bind_ignores_other; [apply index_ignores_other | intros ?]).
  apply ret_ignores_other.
Qed.

Lemma unproject_ignores_other c screen_coordinate depth :
  ignores_other (Other := Other)
    (unproject c screen_coordinate depth)
    (unproject c screen_coordinate depth).
Proof.
  unfold unproject.
  apply bind_ignores_other; [apply read_camera_ignores_other | intros cam].
  destruct (_unproject_method cam); [| apply raise_ignores_other].
  repeat (apply bind_ignores_other; [apply index_ignores_other | intros ?]).
  apply ret_ignores_other.
Qed.

Lemma exec_ignores_other :
  (forall st, ignores_other (Other := Other) (exec st) (exec st)) /\
  (forall b, ignores_other (Other := Other) (exec_block b) (exec_block b)).
Proof.
  apply Stmt_Block_mutind; cbn [exec exec_block].
  - apply use_ignores_other.
  - intros. apply bind_ignores_other;
      [apply project_ignores_other | intros; apply ret_ignores_other].
  - intros. apply bind_ignores_other;
      [apply unproject_ignores_other | intros; apply ret_ignores_other].
  - intros c body IH. by apply activate_ignores_other.
  - intros. apply raise_ignores_other.
  - intros body IH. by apply try_except_pass_ignores_other.
  - apply ret_ignores_other.
  - intros st IHst rest IHrest. by apply bind_ignores_other.
Qed.

Lemma init_ignores_other view_matrix projection_matrix viewport
    project_method unproject_method window :
  ignores_other (Other := Other)
    (__init__ view_matrix projection_matrix viewport project_method
       unproject_method window)
    (__init__ view_matrix projection_matrix viewport project_method
       unproject_method window).
Proof.
  unfold __init__. apply bind_ignores_other.
  { destruct window; [apply ret_ignores_other | apply get_window_ignores_other]. }
  intros win. apply bind_ignores_other; [| by intros vp s].
  destruct viewport as [v|]; [apply ret_ignores_other |].
  intros s. rewrite !run_bind. unfold read_window.
  rewrite forget_lookup. by destruct (windows s !! win).
Qed.

(** C8: [use()] writes exactly four attributes, and no operation reads or
    writes another.  For a camera [c] of a window, [c.use()] returns
    normally and changes the state in this alone: the window of [c] becomes
    the window [installed], whose context holds [c] in the current-camera
    slot and the stored viewport, projection matrix and view matrix of [c],
    and all of whose other attributes are as before.  Any sequence of
    method calls leaves every attribute besides the four as it was, in
    every window, and [__init__] leaves the windows as they are.  And
    nothing besides the four attributes is read: the method calls, and
    [__init__], behave the same with every other attribute forgotten. *)
Theorem use_writes_four_fields s c cam win :
  cameras s !! c = Some cam ->
  windows s !! _win cam = Some win ->
  ((use c s).1 = Ok tt /\
   windows (use c s).2 = <[_win cam := installed c cam win]> (windows s) /\
   assigned (installed c cam win) =
     (Some c, _viewport cam, _projection cam, _view cam) /\
   unassigned (installed c cam win) = unassigned win /\
   cameras (use c s).2 = cameras s /\
   active_window (use c s).2 = active_window s) /\
  (forall calls : Block, only_use_writes s (exec_block calls s).2) /\
  (forall view_matrix projection_matrix viewport project_method
          unproject_method window,
     windows (__init__ view_matrix projection_matrix viewport project_method
                unproject_method window s).2 = windows s) /\
  (forall calls : Block,
     ignores_other (Other := Other) (exec_block calls) (exec_block calls)) /\
  (forall view_matrix projection_matrix viewport project_method
          unproject_method window,
     ignores_other (Other := Other)
       (__init__ view_matrix projection_matrix viewport project_method
          unproject_method window)
       (__init__ view_matrix projection_matrix viewport project_method
          unproject_method window)).
Proof.
  intros Hc Hw. split; [| split; [| split; [| split]]].
  - by rewrite (use_ok _ _ _ _ Hc Hw).
  - intros calls. apply exec_writes.
  - intros. apply init_builds_only.
  - intros calls. apply exec_ignores_other.
  - intros. apply init_ignores_other.
Qed.
End Footprint.


(** * Further properties of the methods and helpers *)

Section Further.
Context {Other : Type}.
Context `{ProjectionFunctions}.

Implicit Types (s : State Other) (c : CamRef) (w : WinRef).
Implicit Types (cam : _StaticCamera) (win : Window Other).

(** ** Transforms *)

Lemma project_state s c world_coordinate :
  (project c world_coordinate s).2 = s.
Proof.
  unfold project. rewrite run_bind. unfold read_camera.
  destruct (cameras s !! c) as [cam|]; [| done].
  destruct (_project_method cam); [| done].
  by destruct world_coordinate as [|x [|y [|z rest]]].
Qed.

Lemma unproject_state s c screen_coordinate depth :
  (unproject c screen_coordinate depth s).2 = s.
Proof.
  unfold unproject. rewrite run_bind. unfold read_camera.
  destruct (cameras s !! c) as [cam|]; [| done].
  destruct (_unproject_method cam); [| done].
  by destruct screen_coordinate as [|x [|y rest]].
Qed.

(** [project] and [unproject] are read-only.  Whatever they are called on
    and whatever they return or raise, the state they end in is the state
    they were given: cameras, windows, registry and history of [use()]
    calls. *)
Theorem transforms_read_only s c world_coordinate screen_coordinate depth :
  (project c world_coordinate s).2 = s /\
  (unproject c screen_coordinate depth s).2 = s.
Proof. split; [apply project_state | apply unproject_state]. Qed.

(** The transforms read the camera, never the context.  In two states that
    hold the same camera under [c], [project] and [unproject] return or
    raise the same, whatever the windows, their contexts and the camera in
    use are. *)
Theorem transforms_ignore_context s1 s2 c world_coordinate screen_coordinate
    depth :
  cameras s1 !! c = cameras s2 !! c ->
  (project c world_coordinate s1).1 = (project c world_coordinate s2).1 /\
  (unproject c screen_coordinate depth s1).1 =
    (unproject c screen_coordinate depth s2).1.
Proof.
  intros Hc. split.
  - unfold project. rewrite !run_bind. unfold read_camera. rewrite Hc.
    destruct (cameras s2 !! c) as [cam|]; [| done].
    destruct (_project_method cam); [| done].
    by destruct world_coordinate as [|x [|y [|z rest]]].
  - unfold unproject. rewrite !run_bind. unfold read_camera. rewrite Hc.
    destruct (cameras s2 !! c) as [cam|]; [| done].
    destruct (_unproject_method cam); [| done].
    by destruct screen_coordinate as [|x [|y rest]].
Qed.

(** [project] needs three components.  On a camera with a project method,
    a coordinate of fewer than three components (none, one or two) raises
    [IndexError]; a coordinate of three or more is projected from its first
    three components with the stored viewport and matrices, and what
    follows the third component is ignored. *)
Theorem project_arity s c cam project_method world_coordinate :
  cameras s !! c = Some cam ->
  _project_method cam = Some project_method ->
  ((length world_coordinate < 3)%nat ->
   project c world_coordinate s = (Raise IndexError, s)) /\
  (forall x y z rest,
     world_coordinate = x :: y :: z :: rest ->
     project c world_coordinate s =
       (Ok (v2_x (project_method (mkVec3 x y z) (_viewport cam) (_view cam)
                    (_projection cam)),
            v2_y (project_method (mkVec3 x y z) (_viewport cam) (_view cam)
                    (_projection cam))),
        s)).
Proof.
  intros Hc Hm. split.
  - intros Hlen. unfold project. rewrite run_bind. unfold read_camera.
    rewrite Hc, Hm.
    destruct world_coordinate as [|x [|y [|z rest]]]; try reflexivity.
    cbn in Hlen. lia.
  - intros x y z rest ->.
    by rewrite (project_configured _ _ _ _ _ _ _ _ Hc Hm).
Qed.

(** [unproject] needs two components.  On a camera with an unproject
    method, a screen coordinate of fewer than two components raises
    [IndexError]; one of two or more is unprojected from its first two
    components, with the stored viewport and matrices and with the depth
    exactly as the caller gave it ([None] when omitted). *)
Theorem unproject_arity s c cam unproject_method screen_coordinate depth :
  cameras s !! c = Some cam ->
  _unproject_method cam = Some unproject_method ->
  ((length screen_coordinate < 2)%nat ->
   unproject c screen_coordinate depth s = (Raise IndexError, s)) /\
  (forall x y rest,
     screen_coordinate = x :: y :: rest ->
     unproject c screen_coordinate depth s =
       (let pos := unproject_method (mkVec2 x y) (_viewport cam) (_view cam)
                     (_projection cam) depth in
        (Ok (v3_x pos, v3_y pos, v3_z pos), s))).
Proof.
  intros Hc Hm. split.
  - intros Hlen. unfold unproject. rewrite run_bind. unfold read_camera.
    rewrite Hc, Hm.
    destruct screen_coordinate as [|x [|y rest]]; try reflexivity.
    cbn in Hlen. lia.
  - intros x y rest ->.
    by rewrite (unproject_configured _ _ _ _ _ _ _ _ Hc Hm).
Qed.

(** ** Scoped activation without a previous camera *)

(** When [ctx.current_camera] is [None] on entry, [with A.activate(): body]
    always ends in [AttributeError], raised by [prev.use()] in the
    [finally] clause: also when the body returned normally, and in place of
    an exception of the body.  Nothing is restored: the state is the one
    the body left, and after an empty body [A] is still installed on its
    window. *)
Theorem activate_without_previous_camera (A : CamRef) camA winA
    (body : CamRef -> M Other unit) s :
  cameras s !! A = Some camA ->
  windows s !! _win camA = Some winA ->
  ctx_current_camera (win_ctx winA) = None ->
  activate A body s =
    (Raise AttributeError, ((let* _ := use A in body A) s).2) /\
  (activate A (fun _ => ret tt) s).1 = Raise AttributeError /\
  windows (activate A (fun _ => ret tt) s).2 !! _win camA =
    Some (installed A camA winA) /\
  use_calls (activate A (fun _ => ret tt) s).2 = use_calls s ++ [A].
Proof.
  intros HA HwA Hprev.
  assert (Hrun : forall body' : CamRef -> M Other unit,
            activate A body' s =
              (Raise AttributeError, ((let* _ := use A in body' A) s).2)).
  { intros body'. rewrite (activate_run _ _ _ _ _ HA HwA), Hprev.
    unfold try_finally. by destruct ((let* _ := use A in body' A) s). }
  split; [apply Hrun |]. rewrite Hrun.
  rewrite run_bind, (use_ok _ _ _ _ HA HwA); cbn.
  by rewrite lookup_insert_eq.
Qed.
(** ** How [use] composes *)

(** The last [use()] wins.  For two cameras of the same window, [A.use()]
    followed by [B.use()] leaves the windows exactly as [B.use()] alone
    does: nothing of [A] stays behind in the four attributes. *)
Theorem use_last_wins (A B : CamRef) camA camB win s :
  cameras s !! A = Some camA ->
  cameras s !! B = Some camB ->
  _win camA = _win camB ->
  windows s !! _win camB = Some win ->
  ((let* _ := use A in use B) s).1 = Ok tt /\
  windows ((let* _ := use A in use B) s).2 = windows (use B s).2 /\
  windows ((let* _ := use A in use B) s).2 !! _win camB =
    Some (installed B camB win).
Proof.
  intros HA HB Hsame Hw.
  assert (HwA : windows s !! _win camA = Some win) by by rewrite Hsame.
  rewrite run_bind, (use_ok _ _ _ _ HA HwA), (use_ok _ _ _ _ HB Hw).
  erewrite use_ok; cbn; [| exact HB | rewrite Hsame; apply lookup_insert_eq].
  rewrite Hsame, insert_insert_eq, lookup_insert_eq. done.
Qed.

(** On different windows [use()] calls do not interfere: [A.use()] and
    [B.use()] in either order leave the same windows, each window with its
    own camera installed. *)
Theorem use_commutes_across_windows (A B : CamRef) camA camB winA winB s :
  cameras s !! A = Some camA ->
  cameras s !! B = Some camB ->
  _win camA <> _win camB ->
  windows s !! _win camA = Some winA ->
  windows s !! _win camB = Some winB ->
  let ab := (let* _ := use A in use B) s in
  let ba := (let* _ := use B in use A) s in
  windows ab.2 = windows ba.2 /\
  windows ab.2 !! _win camA = Some (installed A camA winA) /\
  windows ab.2 !! _win camB = Some (installed B camB winB).
Proof.
  intros HA HB Hne HwA HwB. cbv zeta.
  rewrite !run_bind, (use_ok _ _ _ _ HA HwA), (use_ok _ _ _ _ HB HwB).
  erewrite (use_ok _ B camB winB); cbn;
    [| exact HB | by rewrite lookup_insert_ne].
  erewrite (use_ok _ A camA winA); cbn;
    [| exact HA | by rewrite lookup_insert_ne].
  split; [by apply insert_insert_ne |].
  split.
  - by rewrite lookup_insert_ne, lookup_insert_eq.
  - by rewrite lookup_insert_eq.
Qed.

(** ** Scopes inside scopes *)

(** A block that ends with a statement ends as the statement does. *)
Lemma exec_block_single (st : Stmt) s :
  exec_block (Other := Other) (Then st Done) s = exec st s.
Proof.
  cbn [exec_block]. rewrite run_bind.
  by destruct (exec st s) as [[[]|e] s1].
Qed.

(** Scopes of cameras of one window, nested to any depth: the outcome is
    the one of the body run after the cameras were used in turn, and the
    scopes are left innermost first, each exit calling [use()] on the
    camera that was current when its scope was entered. *)
Lemma nested_exit (cams : list CamRef) (body : Block) :
  forall s w win P camP,
    windows s !! w = Some win ->
    ctx_current_camera (win_ctx win) = Some P ->
    cameras s !! P = Some camP ->
    _win camP = w ->
    Forall (fun c => exists cam, cameras s !! c = Some cam /\ _win cam = w)
      cams ->
    let flat := exec_block (used cams body) s in
    let out := exec_block (nested cams body) s in
    out.1 = flat.1 /\
    cameras out.2 = cameras s /\
    use_calls out.2 = use_calls flat.2 ++ rev (removelast (P :: cams)) /\
    (cams <> [] ->
     exists win',
       windows flat.2 !! w = Some win' /\
       unassigned win' = unassigned win /\
       windows out.2 = <[w := installed P camP win']> (windows flat.2)).
Proof.
  induction cams as [|c rest IH]; intros s w win P camP Hw Hprev HP HwP Hall.
  - cbn. rewrite app_nil_r. repeat split; [| done].
    apply (proj2 exec_writes body s).
  - apply Forall_cons in Hall as [(cam & Hc & Hwc) Hrest].
    assert (Hwcam : windows s !! _win cam = Some win) by by rewrite Hwc.
    assert (HwP' : windows s !! _win camP = Some win) by by rewrite HwP.
    pose proof (use_ok _ _ _ _ Hc Hwcam) as Huse. rewrite Hwc in Huse.
    set (s1 := {| cameras := cameras s;
                  windows := <[w := installed c cam win]> (windows s);
                  active_window := active_window s;
                  use_calls := use_calls s ++ [c] |}) in Huse.
    assert (Hflat : exec_block (used (c :: rest) body) s =
                    exec_block (used rest body) s1).
    { cbn [used exec_block exec]. by rewrite run_bind, Huse. }
    assert (Hinside : (let* _ := use c in exec_block (nested rest body)) s =
                      exec_block (nested rest body) s1).
    { by rewrite run_bind, Huse. }
    destruct (with_block_exit _ _ _ _ _ _ _ (nested rest body)
                Hc Hwcam Hprev HP HwP') as (win1 & Hw1 & Hrest1 & Hexit).
    rewrite Hinside, HwP in Hw1. rewrite Hinside, HwP in Hexit.
    destruct (IH s1 w (installed c cam win) c cam
                (lookup_insert_eq _ _ _) eq_refl Hc Hwc Hrest)
      as (Hres & Hcams & Hcalls & Hwins).
    cbv zeta. cbn [nested]. rewrite exec_block_single, Hexit, Hflat; cbn.
    split; [exact Hres |]. split; [done |].
    split.
    { rewrite Hcalls. destruct rest; cbn; by rewrite <- !app_assoc. }
    intros _.
    destruct rest as [|c2 rest].
    + cbn [nested used] in *. by exists win1.
    + destruct Hwins as (win2 & Hw2 & Hrest2 & Hwins); [done |].
      rewrite Hwins, lookup_insert_eq in Hw1. injection Hw1 as <-.
      exists win2. split; [exact Hw2 |]. split; [exact Hrest2 |].
      rewrite Hwins, insert_insert_eq. reflexivity.
Qed.

(** Nested scopes unwind in reverse.  In a state where the context shows
    the current camera of each window, take cameras [c1 ... cn] of one
    window whose current camera is [P], and any body of method calls.
    [with c1.activate(): ... with cn.activate(): body] ends as the body
    does after [c1.use(); ...; cn.use()], whether it returns or raises;
    leaving the scopes calls [use()] on [c(n-1)], ..., [c1], [P] in this
    order; and the window ends as it was before the outermost scope. *)
Theorem nested_activate_unwinds_in_reverse (cams : list CamRef)
    (body : Block) w win P s :
  shows_current_camera s ->
  windows s !! w = Some win ->
  ctx_current_camera (win_ctx win) = Some P ->
  Forall (fun c => exists cam, cameras s !! c = Some cam /\ _win cam = w)
    cams ->
  let flat := exec_block (used cams body) s in
  let out := exec_block (nested cams body) s in
  out.1 = flat.1 /\
  use_calls out.2 = use_calls flat.2 ++ rev (removelast (P :: cams)) /\
  (cams <> [] -> windows out.2 = <[w := win]> (windows flat.2)).
Proof.
  intros Hs Hw Hprev Hall.
  destruct (Hs _ _ _ Hw Hprev) as (camP & HP & HwP & Hshown).
  destruct (nested_exit cams body s w win P camP Hw Hprev HP HwP Hall)
    as (Hres & _ & Hcalls & Hwins).
  cbv zeta. split; [exact Hres |]. split; [exact Hcalls |].
  intros Hne. destruct (Hwins Hne) as (win' & _ & Hrest & ->).
  by rewrite (installed_restores _ _ _ _ Hshown Hrest).
Qed.

(** Scopes on different windows do not interfere.  In a state where the
    context shows the current camera of each window, let [A] and [B] be
    cameras of two windows whose current cameras are [P] and [Q].
    [with A.activate(): with B.activate(): body] ends as the body does
    after [A.use(); B.use()], whether it returns or raises; leaving the
    scopes calls [Q.use()] and then [P.use()]; and both windows end as
    they were before the outer scope. *)
Theorem nested_activate_across_windows (A B P Q : CamRef) camA camB winA winB
    (body : Block) s :
  shows_current_camera s ->
  cameras s !! A = Some camA ->
  windows s !! _win camA = Some winA ->
  ctx_current_camera (win_ctx winA) = Some P ->
  cameras s !! B = Some camB ->
  windows s !! _win camB = Some winB ->
  ctx_current_camera (win_ctx winB) = Some Q ->
  _win camA <> _win camB ->
  let flat := exec_block (used [A; B] body) s in
  let out := exec_block (nested [A; B] body) s in
  out.1 = flat.1 /\
  use_calls out.2 = use_calls flat.2 ++ [Q; P] /\
  windows out.2 =
    <[_win camA := winA]> (<[_win camB := winB]> (windows flat.2)).
Proof.
  intros Hs HA HwA HprevA HB HwB HprevB Hne.
  destruct (Hs _ _ _ HwA HprevA) as (camP & HP & HwinP & HshownP).
  destruct (Hs _ _ _ HwB HprevB) as (camQ & HQ & HwinQ & HshownQ).
  pose proof (use_ok _ _ _ _ HA HwA) as Huse.
  set (s1 := {| cameras := cameras s;
                windows := <[_win camA := installed A camA winA]> (windows s);
                active_window := active_window s;
                use_calls := use_calls s ++ [A] |}) in Huse.
  assert (HwB1 : windows s1 !! _win camB = Some winB)
    by (cbn; by rewrite lookup_insert_ne).
  assert (HwQ1 : windows s1 !! _win camQ = Some winB) by by rewrite HwinQ.
  destruct (with_block_exit s1 B camB winB Q camQ winB body
              HB HwB1 HprevB HQ HwQ1) as (winB' & _ & HrestB & Hinner).
  rewrite (installed_restores _ _ _ _ HshownQ HrestB), HwinQ in Hinner.
  assert (HwP : windows s !! _win camP = Some winA) by by rewrite HwinP.
  destruct (with_block_exit s A camA winA P camP winA
              (Then (SWith B body) Done) HA HwA HprevA HP HwP)
    as (winA' & _ & HrestA & Houter).
  rewrite (installed_restores _ _ _ _ HshownP HrestA), HwinP in Houter.
  assert (Hinside :
    (let* _ := use A in exec_block (Then (SWith B body) Done)) s =
    exec (SWith B body) s1).
  { by rewrite run_bind, Huse, exec_block_single. }
  rewrite Hinside, Hinner in Houter.
  assert (Hflat : exec_block (used [A; B] body) s =
                  (let* _ := use B in exec_block body) s1).
  { cbn [used exec_block exec]. by rewrite run_bind, Huse. }
  cbv zeta. cbn [nested]. rewrite exec_block_single, Houter, Hflat; cbn.
  by rewrite <- app_assoc.
Qed.

(** ** Construction *)

Lemma build_init (h : HelperCall) :
  exists view_matrix projection_matrix project_method unproject_method,
    forall window,
      build (Other := Other) h window =
        __init__ view_matrix projection_matrix (supplied_viewport h)
          project_method unproject_method window.
Proof.
  destruct h as [view o | view p | [[[p0 p1] p2] p3] near far zoom position
                   up forward viewport | aspect fov near far zoom position
                   up forward viewport | view projection viewport pm um];
    cbn; eexists _, _, _, _; intros window; reflexivity.
Qed.

Lemma supplied_viewport_is_stored_aux s view_matrix projection_matrix v
    project_method unproject_method window w :
  target_window s window = Some w ->
  stored_viewport
    (__init__ view_matrix projection_matrix (Some v) project_method
       unproject_method window s) = Some v.
Proof.
  intros Hw. erewrite init_ok; [| exact Hw | reflexivity].
  cbn. by rewrite lookup_insert_eq.
Qed.

Lemma init_builds_only_of_build (h : HelperCall) window s :
  builds_only s (build h window s).2.
Proof.
  destruct (build_init h) as (v & p & pm & um & ->).
  apply init_builds_only.
Qed.

(** Building a camera installs nothing.  Whichever helper is called and
    however the call ends, the windows and their contexts, the registry of
    the active window and the history of [use()] calls are as before, and
    every camera the store held is still there, unchanged. *)
Theorem construction_installs_nothing (h : HelperCall) window s :
  builds_only s (build h window s).2.
Proof. apply init_builds_only_of_build. Qed.

(** A window that is given overrides the registry.  A helper called with a
    window returns the same reference and builds the same camera whatever
    the registry of the active window holds, also when no window is
    active; and the camera it builds belongs to the window given. *)
Theorem given_window_overrides_registry (h : HelperCall) w a s :
  let r := build h (Some w) s in
  let r' := build h (Some w) (with_active_window a s) in
  r'.1 = r.1 /\
  built_camera r' = built_camera r /\
  (forall cam, built_camera r = Some cam -> _win cam = w).
Proof.
  destruct (build_init h) as (v & p & pm & um & ->). cbv zeta.
  destruct (resolved_viewport s w (supplied_viewport h)) as [vp|] eqn:Hvp.
  - rewrite (init_ok s _ _ _ _ _ (Some w) w vp eq_refl Hvp).
    rewrite (init_ok (with_active_window a s) _ _ _ _ _ (Some w) w vp
               eq_refl Hvp).
    cbn. rewrite lookup_insert_eq. repeat split.
    intros cam [= <-]. reflexivity.
  - rewrite (init_no_viewport s _ _ _ _ _ (Some w) w eq_refl Hvp).
    rewrite (init_no_viewport (with_active_window a s) _ _ _ _ _ (Some w) w
               eq_refl Hvp).
    by repeat split.
Qed.

(** A viewport that is supplied is the one stored.  For every helper whose
    call supplies a viewport (in the descriptor for the two structured
    helpers), the camera stores that viewport, whatever the viewport of the
    context is. *)
Theorem supplied_viewport_is_stored (h : HelperCall) v window w s :
  supplied_viewport h = Some v ->
  target_window s window = Some w ->
  stored_viewport (build h window s) = Some v.
Proof.
  intros Hv Hw. destruct (build_init h) as (vm & p & pm & um & ->).
  rewrite Hv. by apply supplied_viewport_is_stored_aux with (w := w).
Qed.

(** Building a camera and using it installs what the helper was given.  On
    a window that resolves, [build] followed by [use()] returns normally
    and changes the windows in this alone: the target window holds the new
    camera as its current camera with the camera's stored viewport and
    matrices.  The stored viewport is the one supplied, or else the
    viewport the context had when the camera was built, so that without a
    supplied viewport [ctx.viewport] stays as it was. *)
Theorem build_then_use_installs (h : HelperCall) window w win s :
  target_window s window = Some w ->
  windows s !! w = Some win ->
  let r := (let* c := build h window in use c) s in
  r.1 = Ok tt /\
  exists c cam,
    cameras s !! c = None /\
    cameras r.2 !! c = Some cam /\
    _win cam = w /\
    _viewport cam = default (ctx_viewport (win_ctx win)) (supplied_viewport h) /\
    windows r.2 = <[w := installed c cam win]> (windows s) /\
    use_calls r.2 = use_calls s ++ [c].
Proof.
  intros Hw Hwin. destruct (build_init h) as (vm & p & pm & um & ->).
  cbv zeta. rewrite run_bind.
  assert (Hvp : resolved_viewport s w (supplied_viewport h) =
                Some (default (ctx_viewport (win_ctx win))
                        (supplied_viewport h))).
  { destruct (supplied_viewport h); cbn; [done | by rewrite Hwin]. }
  rewrite (init_ok _ _ _ _ _ _ _ _ _ Hw Hvp).
  erewrite use_ok; cbn; [| apply lookup_insert_eq | exact Hwin].
  split; [done |]. eexists _, _.
  split; [apply fresh_camera |].
  split; [apply lookup_insert_eq |]. by cbn.
Qed.

(** The raw orthographic helper against the structured one.  With a
    viewport, [static_from_raw_orthographic] is [static_from_orthographic]
    on the pose and the descriptor made of its arguments.  Without one it
    is not: the descriptor the raw helper makes carries the zero rectangle,
    which the structured helper would store, while the raw helper stores
    the viewport of the context. *)
Theorem raw_orthographic_against_structured p0 p1 p2 p3 near far zoom
    position up forward window w win s :
  target_window s window = Some w ->
  windows s !! w = Some win ->
  (forall v,
     static_from_raw_orthographic (p0, p1, p2, p3) near far zoom position up
       forward (Some v) window s =
     static_from_orthographic (mkCameraData position up forward zoom)
       (mkOrthographicProjectionData p0 p1 p2 p3 near far (Some v))
       window s) /\
  stored_viewport
    (static_from_orthographic (mkCameraData position up forward zoom)
       (mkOrthographicProjectionData p0 p1 p2 p3 near far
          (Some zero_viewport)) window s) = Some zero_viewport /\
  stored_viewport
    (static_from_raw_orthographic (p0, p1, p2, p3) near far zoom position up
       forward None window s) = Some (ctx_viewport (win_ctx win)).
Proof.
  intros Hw Hwin. split; [reflexivity |]. split.
  - unfold static_from_orthographic.
    by apply supplied_viewport_is_stored_aux with (w := w).
  - unfold static_from_raw_orthographic.
    by apply init_viewport with (w := w).
Qed.

(** The perspective builder builds the orthographic camera.  On the same
    pose, descriptor and window, [static_from_perspective] and
    [static_from_orthographic] end the same way and build cameras with the
    same window, viewport, view matrix and projection matrix; the cameras
    can differ in the two transform methods only. *)
Theorem perspective_builder_stores_orthographic_camera view descriptor
    window s :
  let ro := static_from_orthographic view descriptor window s in
  let rp := static_from_perspective view descriptor window s in
  rp.1 = ro.1 /\
  (fun cam => (_win cam, _viewport cam, _view cam, _projection cam))
    <$> built_camera rp =
  (fun cam => (_win cam, _viewport cam, _view cam, _projection cam))
    <$> built_camera ro /\
  windows rp.2 = windows ro.2.
Proof.
  cbv zeta. unfold static_from_orthographic, static_from_perspective.
  destruct (target_window s window) as [w|] eqn:Hw;
    [| by rewrite !init_no_window].
  destruct (resolved_viewport s w (ortho_viewport descriptor)) as [vp|]
    eqn:Hvp.
  - rewrite !(init_ok _ _ _ _ _ _ _ _ _ Hw Hvp); cbn.
    by rewrite !lookup_insert_eq.
  - by rewrite !(init_no_viewport _ _ _ _ _ _ _ _ Hw Hvp).
Qed.

(** The default viewport is taken when the camera is built.  A camera built
    without a viewport stores the viewport the context has at that moment:
    after another camera [D] of the window was used, using the new camera
    puts the viewport of construction time back into the context. *)
Theorem default_viewport_is_snapshot (h : HelperCall) window w win (D : CamRef)
    camD s :
  supplied_viewport h = None ->
  target_window s window = Some w ->
  windows s !! w = Some win ->
  cameras s !! D = Some camD ->
  _win camD = w ->
  let r := (let* c := build h window in let* _ := use D in use c) s in
  r.1 = Ok tt /\
  (fun win' => ctx_viewport (win_ctx win')) <$> (windows r.2 !! w)
    = Some (ctx_viewport (win_ctx win)) /\
  (fun win' => ctx_viewport (win_ctx win'))
    <$> (windows ((let* _ := build h window in use D) s).2 !! w)
    = Some (_viewport camD).
Proof.
  intros Hnone Hw Hwin HD HwD.
  destruct (build_init h) as (vm & p & pm & um & ->). cbv zeta.
  rewrite Hnone, !run_bind.
  assert (Hvp : resolved_viewport s w None = Some (ctx_viewport (win_ctx win)))
    by (cbn; by rewrite Hwin).
  rewrite (init_ok _ _ _ _ _ _ _ _ _ Hw Hvp).
  assert (HD' : forall cam',
            <[fresh (dom (cameras s)) := cam']> (cameras s) !! D = Some camD).
  { intros cam'. rewrite lookup_insert_ne; [done |].
    intros Heq. by rewrite <- Heq, fresh_camera in HD. }
  rewrite run_bind.
  erewrite use_ok; cbn; [| apply HD' | by rewrite HwD].
  erewrite use_ok; cbn;
    [| apply lookup_insert_eq | rewrite HwD; apply lookup_insert_eq].
  rewrite HwD, !lookup_insert_eq. done.
Qed.

(** ** An invariant of the windows *)

Lemma ret_keeps I {A} (a : A) : keeps (Other := Other) I (ret a).
Proof. by intros s. Qed.

Lemma raise_keeps I {A} e : keeps (Other := Other) I (A := A) (raise e).
Proof. by intros s. Qed.

Lemma bind_keeps I {A B} (m : M Other A) (k : A -> M Other B) :
  keeps I m -> (forall a, keeps I (k a)) -> keeps I (let* x := m in k x).
Proof.
  intros Hm Hk s Hs. rewrite run_bind. specialize (Hm s Hs).
  destruct (m s) as [[a|e] s1]; cbn in *; [by apply Hk | done].
Qed.

Lemma try_finally_keeps I {A} (body : M Other A) (final : M Other unit) :
  keeps I body -> keeps I final -> keeps I (try_finally body final).
Proof.
  intros Hb Hf s Hs. unfold try_finally. specialize (Hb s Hs).
  destruct (body s) as [r s1]; cbn in *. specialize (Hf s1 Hb).
  by destruct (final s1) as [[[]|e] s2].
Qed.

Lemma try_except_pass_keeps I (body : M Other unit) :
  keeps I body -> keeps I (try_except_pass body).
Proof.
  intros Hb s Hs. unfold try_except_pass. specialize (Hb s Hs).
  by destruct (body s) as [[[]|e] s1].
Qed.

Lemma use_keeps_shown c : keeps (Other := Other) shows_current_camera (use c).
Proof.
  intros s Hs.
  destruct (use_cases s c) as [cam win Hc Hw | Hc | cam Hc Hw]; cbn;
    [| done | exact Hs].
  intros w' win' c'; cbn.
  destruct (decide (w' = _win cam)) as [->|Hne].
  - rewrite lookup_insert_eq. intros [= <-]; cbn. intros [= <-].
    by exists cam.
  - rewrite lookup_insert_ne by done. apply Hs.
Qed.

Lemma activate_keeps_shown {A} c (body : CamRef -> M Other A) :
  (forall c', keeps shows_current_camera (body c')) ->
  keeps shows_current_camera (activate c body).
Proof.
  intros Hbody. unfold activate.
  apply bind_keeps. { intros s Hs. unfold read_camera.
                      by destruct (cameras s !! c). }
  intros cam. apply bind_keeps.
  { intros s Hs. unfold read_window. by destruct (windows s !! _win cam). }
  intros win. apply try_finally_keeps.
  - apply bind_keeps; [apply use_keeps_shown | intros _; apply Hbody].
  - destruct (ctx_current_camera (win_ctx win));
      [apply use_keeps_shown | apply raise_keeps].
Qed.

Lemma exec_keeps_shown :
  (forall st, keeps (Other := Other) shows_current_camera (exec st)) /\
  (forall b, keeps (Other := Other) shows_current_camera (exec_block b)).
Proof.
  apply Stmt_Block_mutind; cbn [exec exec_block].
  - apply use_keeps_shown.
  - intros c wc. apply bind_keeps; [| intros; apply ret_keeps].
    intros s Hs. by rewrite project_state.
  - intros c sc depth. apply bind_keeps; [| intros; apply ret_keeps].
    intros s Hs. by rewrite unproject_state.
  - intros c body IH. by apply activate_keeps_shown.
  - intros. apply raise_keeps.
  - intros body IH. by apply try_except_pass_keeps.
  - apply ret_keeps.
  - intros st IHst rest IHrest. by apply bind_keeps.
Qed.

Lemma build_keeps_shown (h : HelperCall) window :
  keeps (Other := Other) shows_current_camera (build h window).
Proof.
  intros s Hs w win c Hw Hcur.
  destruct (init_builds_only_of_build h window s) as (Hwins & _ & _ & Hcams).
  rewrite Hwins in Hw.
  destruct (Hs w win c Hw Hcur) as (cam & Hc & Hrest).
  exists cam. split; [by apply Hcams | exact Hrest].
Qed.

(** The context keeps showing the current camera.  If in every window the
    viewport and matrices of the context are those stored by the camera
    that [window.current_camera] names, and that camera belongs to the
    window, then this is still so after any sequence of method calls and
    after any helper call, however they end. *)
Theorem context_shows_current_camera s :
  shows_current_camera s ->
  (forall calls : Block, shows_current_camera (exec_block calls s).2) /\
  (forall (h : HelperCall) window,
     shows_current_camera (build h window s).2).
Proof.
  intros Hs. split.
  - intros calls. by apply exec_keeps_shown.
  - intros h window. by apply build_keeps_shown.
Qed.

End Further.


(** * Runs on the sample objects *)

(** In [sample_state_in_use] the context of window 0 shows camera 0. *)
Lemma sample_state_in_use_shown : shows_current_camera sample_state_in_use.
Proof.
  intros w win c Hw Hcur.
  destruct (decide (w = 0%nat)) as [->|Hne].
  - vm_compute in Hw. injection Hw as <-. cbn in Hcur. injection Hcur as <-.
    by exists (sample_camera 100).
  - exfalso. revert Hw. unfold sample_state_in_use.
    rewrite (use_ok sample_state 0%nat (sample_camera 100) sample_window
               eq_refl eq_refl); cbn.
    unfold sample_state; cbn.
    by rewrite !lookup_insert_ne, lookup_empty.
Qed.




(** [static_from_matrices] without transform methods on [sample_state]
    returns camera 4, and both of its transforms raise, leaving the state
    as it is. *)
Lemma unconfigured_transform_raises_run :
  let built := static_from_matrices (Other := Z) identity_matrix
                 identity_matrix None None None None sample_state in
  built.1 = Ok 4%nat /\
  project 4%nat [1; 2; 3]%float built.2 =
    (Raise (ValueError
       "This Static Camera was not provided a project method at creation"),
     built.2) /\
  unproject 4%nat [1; 2]%float None built.2 =
    (Raise (ValueError
       "This Static Camera was not provided an unproject method at creation"),
     built.2).
Proof.
  cbv zeta.
  pose proof (unconfigured_transform_raises (Other := Z)
    (static_from_matrices identity_matrix identity_matrix None None None None
       sample_state).2 4%nat unconfigured_camera eq_refl)
    as (Hproject & Hunproject & Hbuilt).
  destruct (Hbuilt identity_matrix identity_matrix None None sample_state
              eq_refl) as [Hp Hu].
  split; [reflexivity |].
  split; [exact (Hproject Hp _) | exact (Hunproject Hu _ _)].
Defined.

(** Camera 0 of [sample_state] has a project method; handing it two
    components raises [IndexError]. *)
Lemma project_two_components_raises_run :
  project (Other := Z) 0%nat [1; 2]%float sample_state
    = (Raise IndexError, sample_state).
Proof.
  exact (project_two_components_raises (Other := Z) sample_state 0%nat
           (sample_camera 100) _ 1%float 2%float eq_refl eq_refl).
Defined.

(** [static_from_perspective] on [sample_state], with the sample functions:
    the projection matrix of the new camera is the list the sample
    orthographic generator returns. *)
Lemma static_from_perspective_camera_run :
  exists c s',
    static_from_perspective (Other := Z) (H := sample_functions)
      sample_view sample_descriptor None sample_state = (Ok c, s') /\
    cameras sample_state !! c = None /\
    cameras s' !! c =
      Some {| _win := 0%nat;
              _viewport := sample_viewport;
              _view := identity_matrix;
              _projection := [0; 800; 0; 600; -100; 100; 1]%float;
              _project_method :=
                Some (@project_perspective sample_functions);
              _unproject_method :=
                Some (@unproject_perspective sample_functions) |}.
Proof.
  exact (proj1 (static_from_perspective_camera (Other := Z)
                  (H := sample_functions) sample_state sample_view
                  sample_descriptor None 0%nat sample_viewport
                  eq_refl eq_refl)).
Defined.

(** C3, as stated, fails: on [sample_state], whose context has the viewport
    (0, 0, 800, 600), the raw helpers called without a viewport return
    cameras that store (0, 0, 800, 600), not the zero rectangle. *)
Lemma raw_helpers_do_not_store_zero_viewport :
  stored_viewport
    (static_from_raw_orthographic (Other := Z) (H := sample_functions)
       (0, 800, 0, 600)%float default_near default_far default_zoom
       default_position default_up default_forward None None sample_state)
    = Some (0, 0, 800, 600) /\
  stored_viewport
    (static_from_raw_perspective (Other := Z) (H := sample_functions)
       1%float 90%float default_near default_far default_zoom
       default_position default_up default_forward None None sample_state)
    = Some (0, 0, 800, 600) /\
  Some (0, 0, 800, 600) <> Some zero_viewport.
Proof. split; [reflexivity | split; [reflexivity | discriminate]]. Qed.

(** The five helpers on [sample_state], without a viewport: each camera
    stores the viewport of the context. *)
Lemma unsupplied_viewport_is_context_viewport_run :
  stored_viewport
    (static_from_orthographic (Other := Z) (H := sample_functions)
       sample_view sample_descriptor None sample_state)
    = Some sample_viewport /\
  stored_viewport
    (static_from_raw_orthographic (Other := Z) (H := sample_functions)
       (0, 800, 0, 600)%float default_near default_far default_zoom
       default_position default_up default_forward None None sample_state)
    = Some sample_viewport /\
  stored_viewport
    (static_from_matrices (Other := Z) identity_matrix identity_matrix None
       None None None sample_state)
    = Some sample_viewport.
Proof.
  pose proof (unsupplied_viewport_is_context_viewport (Other := Z)
    (H := sample_functions) sample_state None 0%nat sample_window
    eq_refl eq_refl) as (Hortho & _ & Hraw & _ & Hmat & _).
  split; [exact (Hortho sample_view sample_descriptor eq_refl) |].
  split; [apply Hraw | apply Hmat].
Defined.

(** On [sample_state]: [cameras[0].use()] installs camera 0 on window 0,
    and a nested sequence of calls writes nothing but what [use()]
    assigns. *)
Lemma use_writes_four_fields_run :
  windows (use (Other := Z) 0%nat sample_state).2 =
    <[0%nat := installed 0%nat (sample_camera 100) sample_window]>
      (windows sample_state) /\
  only_use_writes sample_state
    (exec_block (Other := Z)
       (Then (SWith 1%nat (Then (SUse 2%nat) (Then (SRaise 7) Done))) Done)
       sample_state).2 /\
  ignores_other (Other := Z)
    (exec_block (Then (SWith 1%nat (Then (SUse 2%nat) Done)) Done))
    (exec_block (Then (SWith 1%nat (Then (SUse 2%nat) Done)) Done)).
Proof.
  pose proof (use_writes_four_fields (Other := Z) sample_state 0%nat
    (sample_camera 100) sample_window eq_refl eq_refl)
    as ((_ & Hwindows & _) & Hwrites & _ & Hreads & _).
  split; [exact Hwindows |]. split; [apply Hwrites | apply Hreads].
Defined.

(** A camera built on [sample_state] by [static_from_matrices] is camera 4;
    after a nested sequence of calls on it and on camera 0 it still holds
    the matrices it was built with and the viewport of the context. *)
Lemma cameras_fixed_run :
  let s := (static_from_matrices (Other := Z) identity_matrix
              identity_matrix None None None None sample_state).2 in
  let calls :=
    Then (SWith 4%nat
            (Then (SUse 0%nat) (Then (SProject 4%nat [1; 2; 3]%float) Done)))
      (Then (SUse 4%nat) Done) in
  exists w cam,
    cameras (exec_block (Other := Z) calls s).2 !! 4%nat = Some cam /\
    _view cam = identity_matrix /\
    _projection cam = identity_matrix /\
    target_window sample_state None = Some w /\
    resolved_viewport sample_state w None = Some (_viewport cam).
Proof.
  cbv zeta.
  exact (proj2 (cameras_fixed (Other := Z) _ _) identity_matrix
           identity_matrix None None None None sample_state 4%nat eq_refl).
Defined.

(** ** Runs for the further properties *)

(** Camera 0 of [sample_state]: one component raises, four components are
    projected from the first three (the sample method returns x and y). *)
Lemma project_arity_run :
  project (Other := Z) 0%nat [1]%float sample_state
    = (Raise IndexError, sample_state) /\
  project (Other := Z) 0%nat [1; 2; 3; 4]%float sample_state
    = (Ok (1, 2)%float, sample_state).
Proof.
  split.
  - apply (project_arity (Other := Z) sample_state 0%nat (sample_camera 100)
             _ [1]%float eq_refl eq_refl). cbn. lia.
  - exact (proj2 (project_arity (Other := Z) sample_state 0%nat
                    (sample_camera 100) _ [1; 2; 3; 4]%float eq_refl eq_refl)
             1%float 2%float 3%float [4%float] eq_refl).
Defined.

Lemma unproject_arity_run :
  unproject (Other := Z) 0%nat [] (Some 1%float) sample_state
    = (Raise IndexError, sample_state) /\
  unproject (Other := Z) 0%nat [1; 2; 3]%float (Some 9%float) sample_state
    = (Ok (1, 2, 9)%float, sample_state).
Proof.
  split.
  - apply (unproject_arity (Other := Z) sample_state 0%nat
             (sample_camera 100) _ [] (Some 1%float) eq_refl eq_refl).
    cbn. lia.
  - exact (proj2 (unproject_arity (Other := Z) sample_state 0%nat
                    (sample_camera 100) _ [1; 2; 3]%float (Some 9%float)
                    eq_refl eq_refl)
             1%float 2%float [3%float] eq_refl).
Defined.

(** [project] then [unproject] on camera 0 of [sample_state]. *)
Lemma unproject_project_run :
  (let* q := project (Other := Z) 0%nat [1; 2; 3]%float
   in unproject 0%nat [q.1; q.2] (Some 3%float)) sample_state
    = (Ok (1, 2, 3)%float, sample_state).
Proof.
  exact (unproject_project (Other := Z) sample_state 0%nat
           (sample_camera 100) _ _ 1%float 2%float 3%float (Some 3%float)
           eq_refl eq_refl eq_refl).
Defined.

(** With no camera in [ctx.current_camera], a body that raises: what comes
    out is [AttributeError], and camera 0 stays installed. *)
Lemma activate_without_previous_camera_run :
  activate (Other := Z) (A := unit) 0%nat (fun _ => raise (Raised 7))
    sample_state_no_previous =
    (Raise AttributeError,
     (use (Other := Z) 0%nat sample_state_no_previous).2) /\
  use_calls (activate (Other := Z) (A := unit) 0%nat (fun _ => ret tt)
               sample_state_no_previous).2 = [0%nat].
Proof.
  pose proof (activate_without_previous_camera (Other := Z) 0%nat
    (sample_camera 100)
    (set_win_current_camera None sample_window)
    (fun _ => raise (Raised 7)) sample_state_no_previous
    eq_refl eq_refl eq_refl) as (Hrun & _ & _ & Hcalls).
  split; [exact Hrun | exact Hcalls].
Defined.

(** Cameras 0 and 1 of [sample_state] share window 0. *)
Lemma use_last_wins_run :
  windows ((let* _ := use (Other := Z) 0%nat in use 1%nat) sample_state).2
    = windows (use (Other := Z) 1%nat sample_state).2.
Proof.
  exact (proj1 (proj2 (use_last_wins (Other := Z) 0%nat 1%nat
                         (sample_camera 100) (sample_camera 200)
                         sample_window sample_state
                         eq_refl eq_refl eq_refl eq_refl))).
Defined.

(** Camera 0 is on window 0 and camera 5 on window 1. *)
Lemma use_commutes_across_windows_run :
  windows ((let* _ := use (Other := Z) 0%nat in use 5%nat)
             two_window_state).2
    = windows ((let* _ := use (Other := Z) 5%nat in use 0%nat)
                 two_window_state).2.
Proof.
  refine (proj1 (use_commutes_across_windows (Other := Z) 0%nat 5%nat
                   (sample_camera 100) second_window_camera
                   sample_window sample_window two_window_state
                   eq_refl eq_refl _ eq_refl eq_refl)).
  discriminate.
Defined.

(** On [sample_state_in_use], cameras 1 and 2 nested around a body that
    raises: the exception comes out, the scopes are left with
    [cameras[1].use()] and then [cameras[0].use()], and window 0 ends as it
    was. *)
Lemma nested_activate_unwinds_in_reverse_run :
  let out := exec_block (Other := Z)
               (nested [1; 2]%nat (Then (SRaise 7) Done))
               sample_state_in_use in
  out.1 = Raise (Raised 7) /\
  use_calls out.2 = [0; 1; 2; 1; 0]%nat /\
  windows out.2 = windows sample_state_in_use.
Proof.
  destruct (nested_activate_unwinds_in_reverse (Other := Z) [1; 2]%nat
              (Then (SRaise 7) Done) 0%nat
              (installed 0%nat (sample_camera 100) sample_window) 0%nat
              sample_state_in_use sample_state_in_use_shown eq_refl eq_refl)
    as (Hres & Hcalls & Hwins).
  { repeat constructor.
    - by exists (sample_camera 200).
    - by exists (sample_camera 300). }
  cbv zeta. split; [exact Hres |]. split; [exact Hcalls |].
  etrans; [apply Hwins; discriminate | reflexivity].
Defined.

(** In [two_window_state_in_use] the contexts of windows 0 and 1 show
    cameras 0 and 5. *)
Lemma two_window_state_in_use_shown :
  shows_current_camera two_window_state_in_use.
Proof.
  assert (Hwins : windows two_window_state_in_use =
            <[0%nat := installed 0%nat (sample_camera 100) sample_window]>
              (<[1%nat := installed 5%nat second_window_camera sample_window]>
                 ∅)) by reflexivity.
  intros w win c Hw Hcur. rewrite Hwins in Hw.
  destruct (decide (w = 0%nat)) as [->|Hne0].
  - rewrite lookup_insert_eq in Hw. injection Hw as <-.
    cbn in Hcur. injection Hcur as <-. by exists (sample_camera 100).
  - rewrite lookup_insert_ne in Hw by done.
    destruct (decide (w = 1%nat)) as [->|Hne1].
    + rewrite lookup_insert_eq in Hw. injection Hw as <-.
      cbn in Hcur. injection Hcur as <-. by exists second_window_camera.
    + by rewrite lookup_insert_ne, lookup_empty in Hw.
Qed.

(** On [two_window_state_in_use]: camera 1 of window 0 and camera 6 of
    window 1 nested around [cameras[2].use()].  The scopes are left with
    [cameras[5].use()] and then [cameras[0].use()], and the windows end as
    they were. *)
Lemma nested_activate_across_windows_run :
  let out := exec_block (Other := Z)
               (nested [1; 6]%nat (Then (SUse 2%nat) Done))
               two_window_state_in_use in
  out.1 = Ok tt /\
  use_calls out.2 = [0; 5; 1; 6; 2; 5; 0]%nat /\
  windows out.2 = windows two_window_state_in_use.
Proof.
  destruct (nested_activate_across_windows (Other := Z)
              1%nat 6%nat 0%nat 5%nat
              (sample_camera 200) second_window_camera
              (installed 0%nat (sample_camera 100) sample_window)
              (installed 5%nat second_window_camera sample_window)
              (Then (SUse 2%nat) Done) two_window_state_in_use
              two_window_state_in_use_shown
              eq_refl eq_refl eq_refl eq_refl eq_refl eq_refl)
    as (Hres & Hcalls & Hwins); [discriminate |].
  cbv zeta. split; [exact Hres |]. split; [exact Hcalls |].
  etrans; [exact Hwins | reflexivity].
Defined.

Lemma supplied_viewport_is_stored_run :
  stored_viewport
    (build (Other := Z) (H := sample_functions) sample_raw_call None
       sample_state) = Some (10, 20, 30, 40).
Proof.
  exact (supplied_viewport_is_stored (Other := Z) (H := sample_functions)
           sample_raw_call (10, 20, 30, 40) None 0%nat sample_state
           eq_refl eq_refl).
Defined.

(** Building by [sample_raw_call] and using the camera: window 0 gets the
    viewport of the call. *)
Lemma build_then_use_installs_run :
  let r := (let* c := build (Other := Z) (H := sample_functions)
                        sample_raw_call None in use c) sample_state in
  r.1 = Ok tt /\
  (fun win => ctx_viewport (win_ctx win)) <$> (windows r.2 !! 0%nat)
    = Some (10, 20, 30, 40).
Proof.
  cbv zeta.
  destruct (build_then_use_installs (Other := Z) (H := sample_functions)
              sample_raw_call None 0%nat sample_window sample_state
              eq_refl eq_refl)
    as (Hres & c & cam & _ & _ & _ & Hvp & Hwindows & _).
  split; [exact Hres |].
  rewrite Hwindows, lookup_insert_eq. cbn. by rewrite Hvp.
Defined.

Lemma raw_orthographic_against_structured_run :
  stored_viewport
    (static_from_orthographic (Other := Z) (H := sample_functions)
       (mkCameraData default_position default_up default_forward
          default_zoom)
       (mkOrthographicProjectionData 0 800 0 600 default_near default_far
          (Some zero_viewport)) None sample_state) = Some zero_viewport /\
  stored_viewport
    (static_from_raw_orthographic (Other := Z) (H := sample_functions)
       (0, 800, 0, 600)%float default_near default_far default_zoom
       default_position default_up default_forward None None sample_state)
    = Some sample_viewport.
Proof.
  exact (proj2 (raw_orthographic_against_structured (Other := Z)
                  (H := sample_functions) 0 800 0 600 default_near
                  default_far default_zoom default_position default_up
                  default_forward None 0%nat sample_window sample_state
                  eq_refl eq_refl)).
Defined.

(** [sample_state] and [sample_state'] hold the same cameras. *)
Lemma transforms_ignore_context_run :
  (project (Other := Z) 0%nat [1; 2; 3]%float sample_state).1 =
    (project (Other := Z) 0%nat [1; 2; 3]%float sample_state').1 /\
  (unproject (Other := Z) 0%nat [1; 2]%float None sample_state).1 =
    (unproject (Other := Z) 0%nat [1; 2]%float None sample_state').1.
Proof.
  exact (transforms_ignore_context (Other := Z) sample_state sample_state'
           0%nat [1; 2; 3]%float [1; 2]%float None eq_refl).
Defined.

(** A camera built from matrices without a viewport on [sample_state],
    then [cameras[1].use()], then the new camera: the context has the
    viewport (0, 0, 200, 100) of camera 1 in between and (0, 0, 800, 600),
    the one of construction time, at the end. *)
Lemma default_viewport_is_snapshot_run :
  let h := FromMatrices identity_matrix identity_matrix None None None in
  (fun win => ctx_viewport (win_ctx win))
    <$> (windows ((let* c := build (Other := Z) (H := sample_functions) h
                               None
                   in let* _ := use 1%nat in use c) sample_state).2
           !! 0%nat) = Some (0, 0, 800, 600) /\
  (fun win => ctx_viewport (win_ctx win))
    <$> (windows ((let* _ := build (Other := Z) (H := sample_functions) h
                               None
                   in use 1%nat) sample_state).2 !! 0%nat)
    = Some (0, 0, 200, 100).
Proof.
  exact (proj2 (default_viewport_is_snapshot (Other := Z)
                  (H := sample_functions)
                  (FromMatrices identity_matrix identity_matrix None None
                     None)
                  None 0%nat sample_window 1%nat (sample_camera 200)
                  sample_state eq_refl eq_refl eq_refl eq_refl eq_refl)).
Defined.

(** After a nested sequence of calls on [sample_state_in_use], and after a
    helper call, the context still shows the current camera. *)
Lemma context_shows_current_camera_run :
  shows_current_camera
    (exec_block (Other := Z)
       (Then (SWith 1%nat (Then (SUse 2%nat) (Then (SRaise 7) Done)))
          (Then (SUse 0%nat) Done))
       sample_state_in_use).2 /\
  shows_current_camera
    (build (Other := Z) (H := sample_functions) sample_raw_call None
       sample_state_in_use).2.
Proof.
  pose proof (context_shows_current_camera (Other := Z)
                (H := sample_functions) sample_state_in_use
                sample_state_in_use_shown) as [Hcalls Hbuild].
  split; [apply Hcalls | apply Hbuild].
Defined.
